(** * Lunary: organisation endpoints and the evaluation creation view

    A shallow embedding of
    - [packages/backend/api/v1/orgs.ts]: the Koa handlers under
      [/orgs/:orgId] (organisation row, projects, usage, plan upgrade,
      playground completion proxy) together with [compileTemplate] and
      [convertInputToOpenAIMessages];
    - [packages/frontend/pages/evaluations/new.tsx]: the local state of
      the evaluation creation view ([canStartEvaluation], [startEval]).

    Conventions.  A JavaScript string is a [string], the UTF-8 bytes of
    its text; a number is a [float], an IEEE 754 double.  A value that
    may be [undefined] or [null] is an [option]; a JavaScript object
    used as a dictionary is a [gmap string _] of its own properties.
    Handlers run in a state and exception monad over the outside world
    (database, Stripe, the client library and the providers, the trace
    of external calls). *)

From Stdlib Require Import ZArith Floats Ascii String List Sorted Lia.
From stdpp Require Import base option list strings gmap.
From Equations Require Import Equations.

Local Open Scope Z_scope.

(** ** JavaScript strings *)

Module Js.

(** Truthiness of a string: only the empty string is falsy. *)
Definition truthy_str (s : string) : bool :=
  match s with EmptyString => false | String _ _ => true end.

(** Truthiness of a possibly [undefined]/[null] string. *)
Definition truthy (v : option string) : bool :=
  match v with Some s => truthy_str s | None => false end.

(** [a || b] on possibly undefined strings. *)
Definition or_else (a b : option string) : option string :=
  if truthy a then a else b.

(** [s.startsWith(p)], returning the remainder of [s]. *)
Fixpoint strip_prefix (p s : string) : option string :=
  match p, s with
  | EmptyString, _ => Some s
  | String a p', String b s' =>
      if Ascii.eqb a b then strip_prefix p' s' else None
  | String _ _, EmptyString => None
  end.

(** [s.replace(pat, by)] with a string pattern: only the first
    occurrence is replaced. *)
Fixpoint replace_first (pat by_ s : string) : string :=
  match strip_prefix pat s with
  | Some rest => by_ +:+ rest
  | None =>
      match s with
      | EmptyString => EmptyString
      | String c s' => String c (replace_first pat by_ s')
      end
  end.

(** [arr.includes(x)] on an array of strings. *)
Definition includes (arr : list string) (x : string) : bool :=
  bool_decide (x ∈ arr).

(** One step of [Math.min]: the lowest number so far and the next
    one; [-0] is lower than [+0]. *)
Definition is_negative_zero (x : float) : bool :=
  match PrimFloat.classify x with NZero => true | _ => false end.

Definition is_positive_zero (x : float) : bool :=
  match PrimFloat.classify x with PZero => true | _ => false end.

Definition min_step (lowest number : float) : float :=
  if is_negative_zero number && is_positive_zero lowest then number
  else if (number <? lowest)%float then number
  else lowest.

(** [Math.min(...numbers)]: [NaN] when a number is [NaN], and the
    lowest of [Infinity] and the numbers otherwise. *)
Definition Math_min (numbers : list float) : float :=
  if existsb PrimFloat.is_nan numbers then PrimFloat.nan
  else fold_left min_step numbers PrimFloat.infinity.

(** The text of a built-in function, as [String] gives it. *)
Definition native_function (name : string) : string :=
  "function " +:+ name +:+ "() { [native code] }".

(** What [object[key]] finds on [Object.prototype], which the object
    of a JSON body inherits from, as the text that [replace] inserts
    for it: the methods of every object, [constructor], which is
    [Object], and [__proto__], which is the prototype itself. *)
Definition Object_prototype (key : string) : option string :=
  if bool_decide (key = "constructor") then Some (native_function "Object")
  else if bool_decide (key = "__proto__") then Some "[object Object]"
  else if includes
            [ "__defineGetter__"; "__defineSetter__"; "hasOwnProperty";
              "__lookupGetter__"; "__lookupSetter__"; "isPrototypeOf";
              "propertyIsEnumerable"; "toString"; "valueOf";
              "toLocaleString" ] key
       then Some (native_function key)
  else None.

End Js.

(** ** Template compilation *)

Module Template.

(** Strings are the UTF-8 bytes of the text.  The bytes of [{] and [}]
    occur in no other character, so that matching on bytes is matching
    on characters. *)
Definition LF : ascii := ascii_of_nat 10.
Definition CR : ascii := ascii_of_nat 13.

(** U+2028 and U+2029, the line and paragraph separators. *)
Definition LS : string :=
  String (ascii_of_nat 226) (String (ascii_of_nat 128)
    (String (ascii_of_nat 168) EmptyString)).
Definition PS : string :=
  String (ascii_of_nat 226) (String (ascii_of_nat 128)
    (String (ascii_of_nat 169) EmptyString)).

Definition is_line_terminator (c : ascii) : bool :=
  Ascii.eqb c LF || Ascii.eqb c CR.

Definition starts_with (p s : string) : bool :=
  match Js.strip_prefix p s with Some _ => true | None => false end.

(** No byte of [p] is a closing brace. *)
Fixpoint no_brace (p : string) : bool :=
  match p with
  | EmptyString => true
  | String a p' => negb (Ascii.eqb a "}") && no_brace p'
  end.

(** The characters that [.] of a regular expression does not match:
    does [s] start with one of them? *)
Definition at_line_terminator (s : string) : bool :=
  match s with
  | EmptyString => false
  | String c _ => is_line_terminator c || starts_with LS s || starts_with PS s
  end.

(** [(.*?)}}] anchored at the head of [s]: the shortest run of
    characters other than line terminators that is followed by [}}].
    Returns the captured group and what follows the match. *)
Fixpoint lazy_group (s : string) : option (string * string) :=
  match Js.strip_prefix "}}" s with
  | Some rest => Some (EmptyString, rest)
  | None =>
      match s with
      | EmptyString => None
      | String c s' =>
          if at_line_terminator s then None
          else match lazy_group s' with
               | Some (g1, rest) => Some (String c g1, rest)
               | None => None
               end
      end
  end.

(** [/{{(.*?)}}/] anchored at the head of [s]. *)
Definition match_here (s : string) : option (string * string) :=
  match Js.strip_prefix "{{" s with
  | Some s' => lazy_group s'
  | None => None
  end.

(** The replacement callback [(_, g1) => variables[g1] || ""]:
    [variables[g1]] is the own property of that name, and without one
    what the object inherits under that name. *)
Definition replacement (variables : gmap string string) (g1 : string) : string :=
  match variables !! g1 with
  | Some v => if Js.truthy_str v then v else ""
  | None => default "" (Js.Object_prototype g1)
  end.

Lemma strip_prefix_length p s rest :
  Js.strip_prefix p s = Some rest ->
  String.length s = (String.length p + String.length rest)%nat.
Proof.
  revert s. induction p as [|a p IH]; intros [|b s] H;
    cbn [Js.strip_prefix] in H; try discriminate.
  - injection H as <-. reflexivity.
  - injection H as <-. reflexivity.
  - destruct (Ascii.eqb a b); [|discriminate].
    cbn [String.length Nat.add]. rewrite (IH _ H). reflexivity.
Qed.

Lemma lazy_group_unfold s :
  lazy_group s =
  match Js.strip_prefix "}}" s with
  | Some rest => Some (EmptyString, rest)
  | None =>
      match s with
      | EmptyString => None
      | String c s' =>
          if at_line_terminator s then None
          else match lazy_group s' with
               | Some (g1, rest) => Some (String c g1, rest)
               | None => None
               end
      end
  end.
Proof. destruct s; reflexivity. Qed.

Lemma lazy_group_length s g1 rest :
  lazy_group s = Some (g1, rest) ->
  (String.length rest < String.length s)%nat.
Proof.
  revert g1 rest. induction s as [|c s IH]; intros g1 rest;
    rewrite lazy_group_unfold.
  - discriminate.
  - destruct (Js.strip_prefix "}}" (String c s)) as [r|] eqn:E.
    + intros [= <- <-]. apply strip_prefix_length in E.
      cbn [String.length Nat.add] in *. lia.
    + destruct (at_line_terminator (String c s)); [discriminate|].
      destruct (lazy_group s) as [[g r]|]; [|discriminate].
      intros [= <- <-]. specialize (IH _ _ eq_refl).
      cbn [String.length]. lia.
Qed.

Lemma match_here_length s g1 rest :
  match_here s = Some (g1, rest) ->
  (String.length rest < String.length s)%nat.
Proof.
  unfold match_here.
  destruct (Js.strip_prefix "{{" s) as [s'|] eqn:E; [|discriminate].
  intros H%lazy_group_length. apply strip_prefix_length in E.
  cbn [String.length Nat.add] in E. lia.
Qed.

(** Keeps the equation of a scrutinee for the termination proof. *)
Definition inspect {A} (a : A) : {b : A | a = b} := exist _ a eq_refl.

(** [content.replace(/{{(.*?)}}/g, f)]: scan from the left; at a match
    emit [f] of the group and resume after the match, otherwise copy
    one character. *)
Equations? replace_all (f : string -> string) (content : string) : string
  by wf (String.length content) lt :=
  replace_all f EmptyString := EmptyString;
  replace_all f (String c s) with inspect (match_here (String c s)) => {
    | exist _ (Some (g1, rest)) _ := f g1 +:+ replace_all f rest;
    | exist _ None _ := String c (replace_all f s) }.
Proof.
  apply match_here_length in e. cbn [String.length] in e. lia.
Qed.

Definition compileTemplate (content : string) (variables : gmap string string) : string :=
  replace_all (replacement variables) content.

(** *** The tokens of a template, in the words of the specification *)

(** Does [pat] occur somewhere in [s]? *)
Fixpoint occurs (pat s : string) : bool :=
  match Js.strip_prefix pat s with
  | Some _ => true
  | None =>
      match s with
      | EmptyString => false
      | String _ s' => occurs pat s'
      end
  end.

Fixpoint has_line_terminator (s : string) : bool :=
  match s with
  | EmptyString => false
  | String _ s' => at_line_terminator s || has_line_terminator s'
  end.

(** The text of the token for variable [name]. *)
Definition token (name : string) : string := "{{" +:+ name +:+ "}}".

(** [name] is closed by the first [}}] after the opening braces. *)
Definition closed_by_first (name : string) : bool :=
  negb (occurs "}}" (name +:+ "}")).

(** A name the pattern captures: closed by the first [}}] and written
    on one line. *)
Definition one_line_name (name : string) : bool :=
  closed_by_first name && negb (has_line_terminator name).



End Template.

(** ** The outside world: database, Stripe, environment *)

(** The key under which the SQL client ([@/utils/db], not part of the
    sources) exposes a column on the row objects it returns. *)
Class SqlClient := column_key : string -> string.

Module Db.

(** A row of [org], keyed by its [id] in the table.  The columns that
    [GET /] only passes on ([created_at], [billing], [limited],
    [verified], [plan_period], [canceled]) are kept as text. *)
Record org_row := {
  plan : string;
  play_allowance : Z;
  stripe_customer : option string;
  stripe_subscription : option string;
  name : string;
  passed_on : gmap string (option string)
}.

(** A row of [app], keyed by its [id]. *)
Record app_row := {
  app_created_at : Z;
  app_name : string;
  org_id : string
}.

(** A row of [run]: the project it belongs to and its creation time, in
    seconds. *)
Record run_row := {
  app : string;
  created_at : Z
}.

Definition set_name (n : string) (r : org_row) : org_row :=
  {| plan := plan r; play_allowance := play_allowance r;
     stripe_customer := stripe_customer r;
     stripe_subscription := stripe_subscription r;
     name := n; passed_on := passed_on r |}.

Definition set_plan (p : string) (r : org_row) : org_row :=
  {| plan := p; play_allowance := play_allowance r;
     stripe_customer := stripe_customer r;
     stripe_subscription := stripe_subscription r;
     name := name r; passed_on := passed_on r |}.

(** [set play_allowance = play_allowance - 1] *)
Definition decrement_allowance (r : org_row) : org_row :=
  {| plan := plan r; play_allowance := play_allowance r - 1;
     stripe_customer := stripe_customer r;
     stripe_subscription := stripe_subscription r;
     name := name r; passed_on := passed_on r |}.

(** [interval '30 days'] and [date_trunc('day', t)], on seconds. *)
Definition day : Z := 86400.
Definition thirty_days : Z := 30 * day.
Definition date_trunc_day (t : Z) : Z := t / day * day.

End Db.

Module Stripe.

Record price := {
  price_id : string;
  lookup_key : option string
}.

Record item := {
  item_id : string;
  item_price : string
}.

Record subscription := {
  items : list item;
  cancel_at_period_end : bool;
  metadata : gmap string string
}.

(** The parameters of [checkout.sessions.create]; [mode] is always
    ["subscription"] and [payment_method_types] always [["card"]]. *)
Record checkout_params := {
  client_reference_id : string;
  customer : option string;
  checkout_metadata : gmap string string;
  line_items : list (string * Z);
  success_url : string;
  cancel_url : string
}.

(** The parameters of [subscriptions.update]. *)
Record update_params := {
  new_cancel_at_period_end : bool;
  new_metadata : gmap string string;
  new_items : list item
}.

Record state := {
  prices : list price;
  subscriptions : gmap string subscription;
  sessions : list checkout_params;
  (** the URL Stripe gives to the n-th checkout session *)
  session_url : nat -> string
}.

(** [prices.list({ lookup_keys: [key] }).data] *)
Definition prices_list (key : string) (st : state) : list price :=
  filter (fun p => lookup_key p = Some key) (prices st).

Definition add_session (p : checkout_params) (st : state) : state :=
  {| prices := prices st; subscriptions := subscriptions st;
     sessions := sessions st ++ [p]; session_url := session_url st |}.

(** An entry [{ id, price }] of [items] sets the price of the item with
    that id. *)
Definition reprice (changes : list item) (it : item) : item :=
  match find (fun c => bool_decide (item_id c = item_id it)) changes with
  | Some c => {| item_id := item_id it; item_price := item_price c |}
  | None => it
  end.

Definition apply_update (u : update_params) (s : subscription) : subscription :=
  {| items := map (reprice (new_items u)) (items s);
     cancel_at_period_end := new_cancel_at_period_end u;
     metadata := new_metadata u ∪ metadata s |}.

Definition update_subscription (id : string) (u : update_params) (st : state) : state :=
  {| prices := prices st;
     subscriptions := alter (apply_update u) id (subscriptions st);
     sessions := sessions st; session_url := session_url st |}.

End Stripe.

Module Llm.

(** [process.env] as far as the module reads it. *)
Record environment := {
  OPENROUTER_API_KEY : option string;
  OPENAI_API_KEY : option string
}.

(** An element of the request's [content] array: a JSON object, any
    property of which may be missing.  [functionCall] and [toolCalls]
    are objects, kept as their JSON text. *)
Record input_message := {
  role : option string;
  content : option string;
  text : option string;
  functionCall : option string;
  toolCalls : option string;
  name : option string
}.

Record openai_message := {
  m_role : string;
  m_content : option string;
  m_function_call : option string;
  m_tool_calls : option string;
  m_name : option string
}.

(** The constructor options of the OpenAI client. *)
Record client_options := {
  apiKey : option string;
  baseURL : option string;
  defaultHeaders : list (string * string)
}.

(** The function the request is handed to. *)
Inductive method :=
| LitellmCompletion
| OpenAIChatCompletions (options : client_options).

(** The argument of the call; the sampling parameters of [extra]
    ([temperature], [max_tokens], ..., [seed]) are passed on as they
    are, and [stream] is always [true]. *)
Record request := {
  model : string;
  messages : list openai_message;
  sampling : gmap string string
}.

End Llm.

(** ** Handlers as computations over the world *)

Module Effects.

(** What a handler does to the outside, in order. *)
Inductive event :=
| SqlSelectOrg (orgId : string)
| SqlUpdateOrgName (orgId name : string)
| SqlSelectProjects (orgId : string)
| SqlSelectUsage (orgId : string) (projectId : option string)
| SqlSelectOrgBilling (orgId : string)
| SqlUpdateOrgPlan (orgId plan : string)
| SqlSelectPlayAllowance (orgId : string)
| SqlDecrementPlayAllowance (orgId : string)
| StripePricesList (lookupKey : string)
| StripeCheckoutSessionsCreate (params : Stripe.checkout_params)
| StripeSubscriptionsRetrieve (id : option string)
| StripeSubscriptionsUpdate (id : option string) (params : Stripe.update_params)
| LlmCall (method : Llm.method) (request : Llm.request).

Inductive error :=
| Error (message : string)
| TypeError (message : string)
| StripeInvalidRequestError (message : string)
| PostgresError (message : string)
| OpenAIError (message : string).

(** The outside world.  The database answers every statement.
    [openai_constructor] and [completions] stand for the OpenAI client
    library and the providers, which are not part of the sources: the
    error that [new OpenAI(options)] throws, if it throws (it does, for
    one, when it finds no API key), and the error that a call of the
    method rejects with, if it does not respond with a stream. *)
Record world := {
  orgs : gmap string Db.org_row;
  apps : gmap string Db.app_row;
  runs : list Db.run_row;
  now : Z;
  stripe : Stripe.state;
  env : Llm.environment;
  openai_constructor : Llm.client_options -> option error;
  completions : Llm.method -> Llm.request -> option error;
  trace : list event
}.

Definition with_orgs (f : gmap string Db.org_row -> gmap string Db.org_row)
    (w : world) : world :=
  {| orgs := f (orgs w); apps := apps w; runs := runs w; now := now w;
     stripe := stripe w; env := env w;
     openai_constructor := openai_constructor w;
     completions := completions w; trace := trace w |}.

Definition with_stripe (f : Stripe.state -> Stripe.state) (w : world) : world :=
  {| orgs := orgs w; apps := apps w; runs := runs w; now := now w;
     stripe := f (stripe w); env := env w;
     openai_constructor := openai_constructor w;
     completions := completions w; trace := trace w |}.

Definition record (e : event) (w : world) : world :=
  {| orgs := orgs w; apps := apps w; runs := runs w; now := now w;
     stripe := stripe w; env := env w;
     openai_constructor := openai_constructor w;
     completions := completions w; trace := trace w ++ [e] |}.

Inductive result (A : Type) :=
| Ok (a : A)
| Throw (e : error).
Arguments Ok {A} a.
Arguments Throw {A} e.

(** A handler: it returns or throws, and leaves a world behind either
    way (nothing is rolled back on an exception). *)
Definition M (A : Type) : Type := world -> result A * world.

#[export] Instance M_ret : MRet M := fun A a w => (Ok a, w).

#[export] Instance M_bind : MBind M := fun A B f m w =>
  match m w with
  | (Ok a, w') => f a w'
  | (Throw e, w') => (Throw e, w')
  end.

Definition throw {A} (e : error) : M A := fun w => (Throw e, w).
Definition emit (e : event) : M unit := fun w => (Ok tt, record e w).
Definition gets {A} (f : world -> A) : M A := fun w => (Ok (f w), w).
Definition modify (f : world -> world) : M unit := fun w => (Ok tt, f w).

(** [for (const x of xs) ...] collecting the results. *)
Fixpoint for_each {A B} (f : A -> M B) (xs : list A) : M (list B) :=
  match xs with
  | [] => mret []
  | x :: xs' => y ← f x; ys ← for_each f xs'; mret (y :: ys)
  end.

(** A computation without effects that may throw, run by a handler. *)
Definition lift {A} (r : result A) : M A := fun w => (r, w).

(** [xs.map(f)] with a callback that may throw. *)
Fixpoint try_map {A B} (f : A -> result B) (xs : list A) : result (list B) :=
  match xs with
  | [] => Ok []
  | x :: xs' =>
      match f x with
      | Ok y =>
          match try_map f xs' with
          | Ok ys => Ok (y :: ys)
          | Throw e => Throw e
          end
      | Throw e => Throw e
      end
  end.

(** [new OpenAI(options)] *)
Definition new_OpenAI (options : Llm.client_options) : M unit :=
  r ← gets (fun w => openai_constructor w options);
  match r with
  | Some e => throw e
  | None => mret tt
  end.

(** *** Stripe calls *)

Definition stripe_prices_list (lookupKey : string) : M (list Stripe.price) :=
  _ ← emit (StripePricesList lookupKey);
  gets (fun w => Stripe.prices_list lookupKey (stripe w)).

(** Returns the [url] of the new session. *)
Definition stripe_checkout_sessions_create (p : Stripe.checkout_params) : M string :=
  _ ← emit (StripeCheckoutSessionsCreate p);
  n ← gets (fun w => length (Stripe.sessions (stripe w)));
  _ ← modify (with_stripe (Stripe.add_session p));
  gets (fun w => Stripe.session_url (stripe w) n).

Definition no_such_subscription : error :=
  StripeInvalidRequestError "No such subscription".

Definition find_subscription (id : option string) : M Stripe.subscription :=
  sub ← gets (fun w => i ← id; Stripe.subscriptions (stripe w) !! i);
  match sub with
  | Some s => mret s
  | None => throw no_such_subscription
  end.

Definition stripe_subscriptions_retrieve (id : option string) : M Stripe.subscription :=
  _ ← emit (StripeSubscriptionsRetrieve id);
  find_subscription id.

Definition stripe_subscriptions_update (id : option string)
    (u : Stripe.update_params) : M unit :=
  _ ← emit (StripeSubscriptionsUpdate id u);
  _ ← find_subscription id;
  match id with
  | Some i => modify (with_stripe (Stripe.update_subscription i u))
  | None => mret tt
  end.

End Effects.

(** ** packages/backend/api/v1/orgs.ts *)

Module Request.

(** The body of [POST /upgrade]. *)
Record upgrade := {
  plan : string;
  period : string;
  origin : string
}.

(** The [extra] of [POST /playground]: the model name and the sampling
    parameters, which are only passed on. *)
Record extra_options := {
  model : option string;
  sampling : gmap string string
}.

(** The body of [POST /playground]; each of the three properties may
    be missing. *)
Record playground := {
  content : option (list Llm.input_message);
  extra : option extra_options;
  testValues : option (gmap string string)
}.

End Request.

Module Orgs.
Import Effects.

(** What a handler leaves in [ctx.body]. *)
Inductive body :=
| OrgRow (row : option (string * Db.org_row))
| EmptyObject
| ProjectRows (rows : list (string * Db.app_row * bool))
| UsageRows (rows : list (Z * nat))
| OkWithUrl (url : string)
| OkOnly
| StreamingTextResponse (method : Llm.method) (request : Llm.request).

Section Handlers.
Context `{client : SqlClient}.

(** *** GET / *)

Definition select_org (orgId : string) : M (list (string * Db.org_row)) :=
  _ ← emit (SqlSelectOrg orgId);
  gets (fun w => option_list (pair orgId <$> orgs w !! orgId)).

Definition get_org (orgId : string) : M body :=
  rows ← select_org orgId;
  mret (OrgRow (head rows)).

(** *** PATCH / *)

Definition undefined_value : error :=
  PostgresError "UNDEFINED_VALUE: Undefined values are not allowed".

(** [update org set name = ${name} where id = ${orgId}]; the client
    rejects an [undefined] parameter and sends no statement. *)
Definition update_org_name (orgId : string) (name : option string) : M unit :=
  match name with
  | Some name =>
      _ ← emit (SqlUpdateOrgName orgId name);
      modify (with_orgs (alter (Db.set_name name) orgId))
  | None => throw undefined_value
  end.

(** [name] is the property of the body, if the body has it. *)
Definition patch_org (orgId : string) (name : option string) : M body :=
  _ ← update_org_name orgId name;
  mret EmptyObject.

(** *** GET /projects *)

(** [exists(select * from run where app = app.id)] *)
Definition activated (runs : list Db.run_row) (id : string) : bool :=
  existsb (fun r => bool_decide (Db.app r = id)) runs.

Definition select_projects (orgId : string) : M (list (string * Db.app_row * bool)) :=
  _ ← emit (SqlSelectProjects orgId);
  gets (fun w =>
    (fun '(id, a) => (id, a, activated (runs w) id)) <$>
    filter (fun '(_, a) => Db.org_id a = orgId) (map_to_list (apps w))).

Definition get_projects (orgId : string) : M body :=
  rows ← select_projects orgId;
  mret (ProjectRows rows).

(** *** GET /usage *)

(** One more run on day [d], in a list of days ordered from the latest
    to the earliest ([group by date order by date desc]). *)
Fixpoint count_on (d : Z) (rows : list (Z * nat)) : list (Z * nat) :=
  match rows with
  | [] => [(d, 1%nat)]
  | (d', n) :: rows' =>
      if d' <? d then (d, 1%nat) :: rows
      else if d' =? d then (d', S n) :: rows'
      else (d', n) :: count_on d rows'
  end.

Definition group_by_day (days : list Z) : list (Z * nat) :=
  foldr count_on [] days.

(** [r.created_at > now() - interval '30 days'] *)
Definition recent (now : Z) (r : Db.run_row) : bool :=
  now - Db.thirty_days <? Db.created_at r.

(** The [from] and [where] of the query: with a falsy [projectId] the
    run is joined to its app and the app must be of the organisation;
    otherwise [r.app] must be the project. *)
Definition usage_selects (w : world) (orgId : string) (projectId : option string)
    (r : Db.run_row) : bool :=
  (if negb (Js.truthy projectId)
   then match apps w !! Db.app r with
        | Some a => bool_decide (Db.org_id a = orgId)
        | None => false
        end
   else bool_decide (Some (Db.app r) = projectId))
  && recent (now w) r.

Definition usage_rows (w : world) (orgId : string) (projectId : option string)
    : list (Z * nat) :=
  group_by_day
    (map (fun r => Db.date_trunc_day (Db.created_at r))
         (List.filter (usage_selects w orgId projectId) (runs w))).

Definition select_usage (orgId : string) (projectId : option string)
    : M (list (Z * nat)) :=
  _ ← emit (SqlSelectUsage orgId projectId);
  gets (fun w => usage_rows w orgId projectId).

Definition get_usage (orgId : string) (projectId : option string) : M body :=
  rows ← select_usage orgId projectId;
  mret (UsageRows rows).

(** The count that [rows] holds for day [d]. *)
Fixpoint tally (d : Z) (rows : list (Z * nat)) : nat :=
  match rows with
  | [] => 0
  | (d', n) :: rows' => if d' =? d then n else tally d rows'
  end.

(** The answer in the words of the specification.  A run is in the
    window when it was created less than thirty days ago; it is of a
    project when its [app] is that project, and of an organisation when
    its [app] is a project of the organisation. *)
Definition in_window (w : world) (r : Db.run_row) : bool :=
  bool_decide (now w - Db.thirty_days < Db.created_at r).

Definition of_project (projectId : string) (r : Db.run_row) : bool :=
  bool_decide (Db.app r = projectId).

Definition of_org (w : world) (orgId : string) (r : Db.run_row) : bool :=
  bool_decide (Db.org_id <$> apps w !! Db.app r = Some orgId).

Definition descending (rows : list (Z * nat)) : Prop :=
  StronglySorted (fun a b => b.1 < a.1) rows.

(** [rows] holds, from the latest day to the earliest, each day on
    which a run that [counted] accepts was created, with the number of
    these runs. *)
Definition day_counts (w : world) (counted : Db.run_row -> bool)
    (rows : list (Z * nat)) : Prop :=
  descending rows /\
  forall d n,
    (d, n) ∈ rows <->
    (0 < n)%nat /\
    n = length (filter (fun r => counted r = true /\
                                 Db.date_trunc_day (Db.created_at r) = d)
                       (runs w)).

(** The statement of C6 on a present [projectId], as the specification
    words it. *)
Definition project_counts_when_present : Prop :=
  forall w orgId projectId,
    day_counts w (fun r => of_project projectId r && in_window w r)
      (usage_rows w orgId (Some projectId)).

(** *** POST /upgrade *)

(** The row object of [select id, plan, stripe_customer,
    stripe_subscription from org]: one property per column, under the
    key the client gives it.  A [null] column and a missing property
    both read as [None]. *)
Definition billing_row (orgId : string) (r : Db.org_row) : gmap string (option string) :=
  <[column_key "stripe_subscription" := Db.stripe_subscription r]>
  (<[column_key "stripe_customer" := Db.stripe_customer r]>
  (<[column_key "plan" := Some (Db.plan r)]>
  (<[column_key "id" := Some orgId]> ∅))).

(** [row.key] *)
Definition prop (row : gmap string (option string)) (key : string) : option string :=
  mjoin (row !! key).

Definition select_org_billing (orgId : string) : M (list (gmap string (option string))) :=
  _ ← emit (SqlSelectOrgBilling orgId);
  gets (fun w => option_list (billing_row orgId <$> orgs w !! orgId)).

Definition update_org_plan (orgId plan : string) : M unit :=
  _ ← emit (SqlUpdateOrgPlan orgId plan);
  modify (with_orgs (alter (Db.set_plan plan) orgId)).

Definition no_price_found : error :=
  Error "No price found for this plan and period".

Definition org_not_found : error := Error "Org not found".

Definition plan_metadata (b : Request.upgrade) : gmap string string :=
  {[ "plan" := Request.plan b; "period" := Request.period b ]}.

Definition post_upgrade (orgId : string) (b : Request.upgrade) : M body :=
  let lookupKey := Request.plan b +:+ "_" +:+ Request.period b in
  prices ← stripe_prices_list lookupKey;
  match prices with
  | [] => throw no_price_found
  | price :: _ =>
      let priceId := Stripe.price_id price in
      rows ← select_org_billing orgId;
      match rows with
      | [] => throw org_not_found
      | org :: _ =>
          if negb (Js.truthy (prop org "stripe_subscription")) then
            url ← stripe_checkout_sessions_create
                    {| Stripe.client_reference_id := orgId;
                       Stripe.customer :=
                         Js.or_else (prop org "stripeCustomer") None;
                       Stripe.checkout_metadata := plan_metadata b;
                       Stripe.line_items := [(priceId, 1)];
                       Stripe.success_url :=
                         Request.origin b +:+ "/billing/thank-you";
                       Stripe.cancel_url := Request.origin b +:+ "/billing" |};
            mret (OkWithUrl url)
          else
            subscription ← stripe_subscriptions_retrieve
                             (prop org "stripeSubscription");
            match Stripe.items subscription with
            | [] =>
                throw (TypeError
                  "Cannot read properties of undefined (reading 'id')")
            | first :: _ =>
                let subItem := Stripe.item_id first in
                _ ← stripe_subscriptions_update (prop org "stripeSubscription")
                      {| Stripe.new_cancel_at_period_end := false;
                         Stripe.new_metadata := plan_metadata b;
                         Stripe.new_items :=
                           [{| Stripe.item_id := subItem;
                               Stripe.item_price := priceId |}] |};
                _ ← update_org_plan orgId (Request.plan b);
                mret OkOnly
            end
      end
  end.

(** The statement of C7 on the second error, as the specification words
    it. *)
Definition org_not_found_exactly_without_row : Prop :=
  forall orgId b w,
    (post_upgrade orgId b w).1 = Throw org_not_found <-> orgs w !! orgId = None.

(** The client exposes none of the other selected columns under a
    spelling of the subscription column. *)
Definition other_columns_apart : Prop :=
  Forall (fun c => column_key c <> "stripe_subscription" /\
                   column_key c <> "stripeSubscription")
         ["id"; "plan"; "stripe_customer"].

(** *** POST /playground *)

Definition OPENROUTER_MODELS : list string :=
  [ "mistralai/mistral-7b-instruct";
    "openai/gpt-4-32k";
    "openchat/openchat-7b";
    "teknium/openhermes-2.5-mistral-7b";
    "mistralai/mixtral-8x7b-instruct";
    "open-orca/mistral-7b-openorca";
    "perplexity/pplx-70b-chat";
    "perplexity/pplx-7b-chat";
    "google/gemini-pro";
    "google/palm-2-chat-bison";
    "meta-llama/llama-2-13b-chat";
    "meta-llama/llama-2-70b-chat" ].

Definition ANTHROPIC_MODELS : list string :=
  [ "claude-2"; "claude-2.0"; "claude-instant-v1" ].

(** The callback of [input.map]: [role.replace] on a message without a
    role throws.  [functionCall] and [toolCalls] are objects when
    present, so [x || undefined] is [x]. *)
Definition convert_message (m : Llm.input_message)
    : result Llm.openai_message :=
  match Llm.role m with
  | Some role =>
      Ok {| Llm.m_role := Js.replace_first "ai" "assistant" role;
            Llm.m_content := Js.or_else (Llm.content m) (Llm.text m);
            Llm.m_function_call := Llm.functionCall m;
            Llm.m_tool_calls := Llm.toolCalls m;
            Llm.m_name := Js.or_else (Llm.name m) None |}
  | None =>
      Throw (TypeError
        "Cannot read properties of undefined (reading 'replace')")
  end.

Definition convertInputToOpenAIMessages (input : list Llm.input_message)
    : result (list Llm.openai_message) :=
  try_map convert_message input.

(** The row object of [select play_allowance from org]. *)
Definition allowance_row (r : Db.org_row) : gmap string Z :=
  {[ column_key "play_allowance" := Db.play_allowance r ]}.

Definition select_play_allowance (orgId : string) : M (list (gmap string Z)) :=
  _ ← emit (SqlSelectPlayAllowance orgId);
  gets (fun w => option_list (allowance_row <$> orgs w !! orgId)).

Definition decrement_play_allowance (orgId : string) : M unit :=
  _ ← emit (SqlDecrementPlayAllowance orgId);
  modify (with_orgs (alter Db.decrement_allowance orgId)).

(** [org?.playAllowance <= 0]; [undefined <= 0] is [false]. *)
Definition allowance_exhausted (org : option (gmap string Z)) : bool :=
  match org ≫= (fun row => row !! "playAllowance") with
  | Some n => n <=? 0
  | None => false
  end.

Definition no_allowance_left : error :=
  Error "No allowance left today. Wait tomorrow or upgrade to continue using the playground.".

(** [item.content = compileTemplate(item.content, testValues)]; the
    call of [replace] on a missing content throws. *)
Definition compile_item (testValues : gmap string string)
    (item : Llm.input_message) : M Llm.input_message :=
  match Llm.content item with
  | Some c =>
      mret {| Llm.role := Llm.role item;
              Llm.content := Some (Template.compileTemplate c testValues);
              Llm.text := Llm.text item;
              Llm.functionCall := Llm.functionCall item;
              Llm.toolCalls := Llm.toolCalls item;
              Llm.name := Llm.name item |}
  | None =>
      throw (TypeError
        "Cannot read properties of undefined (reading 'replace')")
  end.

(** [extra?.model || "gpt-3.5-turbo"] *)
Definition model_of (extra : option Request.extra_options) : string :=
  default "gpt-3.5-turbo" (Js.or_else (extra ≫= Request.model) None).

Definition openrouter_options (e : Llm.environment) : Llm.client_options :=
  {| Llm.apiKey := Llm.OPENROUTER_API_KEY e;
     Llm.baseURL := Some "https://openrouter.ai/api/v1";
     Llm.defaultHeaders :=
       [ ("HTTP-Referer", "https://lunary.ai"); ("X-Title", "Lunary.ai") ] |}.

Definition openai_options (e : Llm.environment) : Llm.client_options :=
  {| Llm.apiKey := Llm.OPENAI_API_KEY e;
     Llm.baseURL := None;
     Llm.defaultHeaders := [] |}.

(** The options of the client when the model is not an Anthropic one. *)
Definition openAIparams (e : Llm.environment) (model : string)
    : Llm.client_options :=
  if Js.includes OPENROUTER_MODELS model
  then openrouter_options e
  else openai_options e.

(** [await method({...})]: the call is made; the provider responds
    with a stream, or the call rejects. *)
Definition call (method : Llm.method) (request : Llm.request) : M unit :=
  _ ← emit (LlmCall method request);
  r ← gets (fun w => completions w method request);
  match r with
  | Some e => throw e
  | None => mret tt
  end.

Definition content_not_iterable : error :=
  TypeError "content is not iterable".

Definition post_playground (orgId : string) (b : Request.playground) : M body :=
  rows ← select_play_allowance orgId;
  _ ← (if allowance_exhausted (head rows)
       then throw no_allowance_left else mret tt);
  _ ← decrement_play_allowance orgId;
  copy ← match Request.content b with
         | Some content => mret content
         | None => throw content_not_iterable
         end;
  copy ← match Request.testValues b with
         | Some testValues => for_each (compile_item testValues) copy
         | None => mret copy
         end;
  let model := model_of (Request.extra b) in
  messages ← lift (convertInputToOpenAIMessages copy);
  method ← (if Js.includes ANTHROPIC_MODELS model
            then mret Llm.LitellmCompletion
            else
              e ← gets env;
              let options := openAIparams e model in
              _ ← new_OpenAI options;
              mret (Llm.OpenAIChatCompletions options));
  let request :=
    {| Llm.model := model;
       Llm.messages := messages;
       Llm.sampling := from_option Request.sampling ∅ (Request.extra b) |} in
  _ ← call method request;
  mret (StreamingTextResponse method request).

(** The value of [method] at the call, for a model: the helper of
    litellm, or the bound [create] of a client with the options of the
    model. *)
Definition select_method (e : Llm.environment) (model : string) : Llm.method :=
  if Js.includes ANTHROPIC_MODELS model then Llm.LitellmCompletion
  else Llm.OpenAIChatCompletions (openAIparams e model).

(** The items of the body; none when [content] is missing. *)
Definition items (b : Request.playground) : list Llm.input_message :=
  default [] (Request.content b).

(** The template loop runs to its end: no test values are given, or
    every message has a content. *)
Definition templates_compile (b : Request.playground) : Prop :=
  match Request.testValues b with
  | Some _ => Forall (fun m => is_Some (Llm.content m)) (items b)
  | None => True
  end.

(** Every message has a role. *)
Definition roles_given (b : Request.playground) : Prop :=
  Forall (fun m => is_Some (Llm.role m)) (items b).

(** The client of the model is constructed: the model is an Anthropic
    one, which needs none, or [new OpenAI] accepts the options. *)
Definition client_constructed (b : Request.playground) (w : world) : Prop :=
  let model := model_of (Request.extra b) in
  Js.includes ANTHROPIC_MODELS model = true \/
  openai_constructor w (openAIparams (env w) model) = None.

(** Nothing throws between the decrement and the call. *)
Definition prepared (b : Request.playground) (w : world) : Prop :=
  is_Some (Request.content b) /\ templates_compile b /\ roles_given b /\
  client_constructed b w.

(** The statement of C10 on the provider call, as the specification
    words it: the handler goes on to call the selected provider. *)
Definition unknown_org_reaches_provider : Prop :=
  forall orgId b w,
    orgs w !! orgId = None ->
    exists request,
      LlmCall (select_method (env w) (model_of (Request.extra b))) request
      ∈ trace (post_playground orgId b w).2.

(** *** The router *)

Inductive http_request :=
| GetOrg (orgId : string)
| PatchOrg (orgId : string) (name : option string)
| GetProjects (orgId : string)
| GetUsage (orgId : string) (projectId : option string)
| PostUpgrade (orgId : string) (b : Request.upgrade)
| PostPlayground (orgId : string) (b : Request.playground).

Definition handle (r : http_request) : M body :=
  match r with
  | GetOrg orgId => get_org orgId
  | PatchOrg orgId name => patch_org orgId name
  | GetProjects orgId => get_projects orgId
  | GetUsage orgId projectId => get_usage orgId projectId
  | PostUpgrade orgId b => post_upgrade orgId b
  | PostPlayground orgId b => post_playground orgId b
  end.

(** The world after a sequence of requests, served one at a time. *)
Definition serve (rs : list http_request) (w : world) : world :=
  foldl (fun w r => snd (handle r w)) w rs.

(** The invariant of C3: no organisation has a negative allowance. *)
Definition allowance_nonneg (w : world) : Prop :=
  forall id r, orgs w !! id = Some r -> 0 <= Db.play_allowance r.

End Handlers.

(** A client that camel-cases column names ([play_allowance] becomes
    [playAllowance]): the convention that the reads [org?.playAllowance],
    [org.stripeCustomer] and [org.stripeSubscription] rely on. *)
Definition upper (c : ascii) : ascii :=
  let n := nat_of_ascii c in
  if (97 <=? n)%nat && (n <=? 122)%nat then ascii_of_nat (n - 32) else c.

Fixpoint camel_case (x : string) : string :=
  match x with
  | EmptyString => EmptyString
  | String c rest =>
      if Ascii.eqb c "_" then
        match rest with
        | String d rest' => String (upper d) (camel_case rest')
        | EmptyString => EmptyString
        end
      else String c (camel_case rest)
  end.

Definition camel_client : SqlClient := camel_case.

(** A client that leaves column names as they are. *)
Definition plain_client : SqlClient := fun column => column.

End Orgs.

(** ** packages/frontend/pages/evaluations/new.tsx *)

Module NewEvaluation.

(** The state of the view: the [useState] cells, and the time estimate
    of the running interval, if one runs. *)
Record state := {
  checklistModal : bool;
  models : list string;
  datasetId : option string;
  checklistId : option string;
  loading : bool;
  progress : float;
  interval : option nat
}.

Definition initial : state :=
  {| checklistModal := false;
     models := ["gpt-4-turbo-preview"; "gpt-3.5-turbo"];
     datasetId := None;
     checklistId := None;
     loading := false;
     progress := 0%float;
     interval := None |}.

(** [datasetId && models.length > 0 && checklistId], as a condition. *)
Definition canStartEvaluation (st : state) : bool :=
  Js.truthy (datasetId st) && (0 <? length (models st))%nat
  && Js.truthy (checklistId st).

(** [loading={loading}] and [disabled={!canStartEvaluation}]: the
    button of the component library takes no click while it is disabled
    or loading. *)
Definition start_disabled (st : state) : bool :=
  negb (canStartEvaluation st) || loading st.

(** [models.length * 3 * 5] *)
Definition timeEstimate (st : state) : nat := (length (models st) * 3 * 5)%nat.

(** The number of a length (below 2^53, where every integer is a
    double). *)
Definition of_nat (n : nat) : float :=
  PrimFloat.of_uint63 (Uint63.of_Z (Z.of_nat n)).

(** The interval callback:
    [Math.min(100, progress + 100 / timeEstimate, 100)]. *)
Definition tick (timeEstimate : nat) (progress : float) : float :=
  Js.Math_min [100; progress + 100 / of_nat timeEstimate; 100]%float.

(** What the user does in the model picker: pick an option, or remove
    a selected one. *)
Inductive pick :=
| Add (option_value : string)
| Remove (option_value : string).

(** Modelled from the spec: the model picker is the [MultiSelect] of the
    component library, which is not part of the sources; with
    [maxValues] set it rejects a selection of more values than that.
    The result is the argument of [onChange], when it is called. *)
Definition multi_select (maxValues : nat) (value : list string) (p : pick)
    : option (list string) :=
  match p with
  | Add v =>
      if bool_decide (v ∈ value) then None
      else if (length value <? maxValues)%nat then Some (value ++ [v])
      else None
  | Remove v => Some (filter (fun x => x <> v) value)
  end.

(** [maxValues={3}] *)
Definition maxValues : nat := 3.

(** What the user and the runtime do to the view. *)
Inductive action :=
| ChangeDataset (id : option string)
| ChangeModels (p : pick)
| ChangeChecklist (id : option string)
| OpenChecklistModal
| CloseChecklistModal (id : option string)
| ClickStart
| Tick
| Response.

Definition setDatasetId (v : option string) (st : state) : state :=
  {| checklistModal := checklistModal st; models := models st;
     datasetId := v; checklistId := checklistId st;
     loading := loading st; progress := progress st;
     interval := interval st |}.

Definition setModels (v : list string) (st : state) : state :=
  {| checklistModal := checklistModal st; models := v;
     datasetId := datasetId st; checklistId := checklistId st;
     loading := loading st; progress := progress st;
     interval := interval st |}.

Definition setChecklistId (v : option string) (st : state) : state :=
  {| checklistModal := checklistModal st; models := models st;
     datasetId := datasetId st; checklistId := v;
     loading := loading st; progress := progress st;
     interval := interval st |}.

Definition setChecklistModal (v : bool) (st : state) : state :=
  {| checklistModal := v; models := models st;
     datasetId := datasetId st; checklistId := checklistId st;
     loading := loading st; progress := progress st;
     interval := interval st |}.

Definition setProgress (f : float -> float) (st : state) : state :=
  {| checklistModal := checklistModal st; models := models st;
     datasetId := datasetId st; checklistId := checklistId st;
     loading := loading st; progress := f (progress st);
     interval := interval st |}.

(** [startEval] up to the request: [setLoading(true)], the estimate,
    [setProgress(0)], [setInterval]. *)
Definition startEval (st : state) : state :=
  {| checklistModal := checklistModal st; models := models st;
     datasetId := datasetId st; checklistId := checklistId st;
     loading := true; progress := 0%float;
     interval := Some (timeEstimate st) |}.

(** [startEval] after the request: [clearInterval], [setLoading(false)]. *)
Definition finishEval (st : state) : state :=
  {| checklistModal := checklistModal st; models := models st;
     datasetId := datasetId st; checklistId := checklistId st;
     loading := false; progress := progress st;
     interval := None |}.

Definition update (st : state) (a : action) : state :=
  match a with
  | ChangeDataset id => setDatasetId id st
  | ChangeModels p =>
      match multi_select maxValues (models st) p with
      | Some newModels => setModels newModels st
      | None => st
      end
  | ChangeChecklist id => setChecklistId id st
  | OpenChecklistModal => setChecklistModal true st
  | CloseChecklistModal id =>
      let st' := setChecklistModal false st in
      if Js.truthy id then setChecklistId id st' else st'
  | ClickStart => if start_disabled st then st else startEval st
  | Tick =>
      match interval st with
      | Some estimate => setProgress (tick estimate) st
      | None => st
      end
  | Response => finishEval st
  end.

Definition run (actions : list action) : state := foldl update initial actions.

(** A choice is made when the state holds a non-empty identifier. *)
Definition selected (v : option string) : Prop :=
  exists id, v = Some id /\ id <> "".

(** The statement of C8 on the button, as the specification words it:
    in every state of the view the button is enabled exactly when the
    three choices are made. *)
Definition start_enabled_iff_chosen : Prop :=
  forall actions,
    let st := run actions in
    start_disabled st = false <->
    selected (datasetId st) /\ models st <> [] /\ selected (checklistId st).

End NewEvaluation.

(** ** Sample data *)

Module Sample.
Import Effects.

Definition acme : Db.org_row :=
  {| Db.plan := "free"; Db.play_allowance := 0;
     Db.stripe_customer := Some "cus_1";
     Db.stripe_subscription := Some "sub_1";
     Db.name := "Acme"; Db.passed_on := ∅ |}.

Definition initech : Db.org_row :=
  {| Db.plan := "free"; Db.play_allowance := 3;
     Db.stripe_customer := None;
     Db.stripe_subscription := None;
     Db.name := "Initech"; Db.passed_on := ∅ |}.

Definition billing : Stripe.state :=
  {| Stripe.prices :=
       [ {| Stripe.price_id := "price_pro";
            Stripe.lookup_key := Some "pro_monthly" |} ];
     Stripe.subscriptions :=
       {[ "sub_1" :=
            {| Stripe.items :=
                 [ {| Stripe.item_id := "si_1";
                      Stripe.item_price := "price_free" |} ];
               Stripe.cancel_at_period_end := false;
               Stripe.metadata := ∅ |} ]};
     Stripe.sessions := [];
     Stripe.session_url := fun _ => "https://checkout.stripe.com/c/pay" |}.

(** Two organisations, one project each, and three runs: two of
    [app_1] on day 100, one of [app_2] on day 99, seen on day 101. *)
Definition world0 : world :=
  {| orgs := {[ "org_1" := acme; "org_2" := initech ]};
     apps := {[ "app_1" := {| Db.app_created_at := 0; Db.app_name := "web";
                              Db.org_id := "org_1" |};
                "app_2" := {| Db.app_created_at := 0; Db.app_name := "api";
                              Db.org_id := "org_2" |} ]};
     runs := [ {| Db.app := "app_1"; Db.created_at := 100 * Db.day + 5 |};
               {| Db.app := "app_2"; Db.created_at := 99 * Db.day + 7 |};
               {| Db.app := "app_1"; Db.created_at := 100 * Db.day + 9 |} ];
     now := 101 * Db.day;
     stripe := billing;
     env := {| Llm.OPENROUTER_API_KEY := Some "sk-or";
               Llm.OPENAI_API_KEY := Some "sk-oa" |};
     openai_constructor := fun _ => None;
     completions := fun _ _ => None;
     trace := [] |}.

Definition hello : Llm.input_message :=
  {| Llm.role := Some "user"; Llm.content := Some "Hello {{name}}";
     Llm.text := None; Llm.functionCall := None; Llm.toolCalls := None;
     Llm.name := None |}.

Definition prompt : Request.playground :=
  {| Request.content := Some [hello];
     Request.extra := None;
     Request.testValues := Some {[ "name" := "Bob" ]} |}.

(** A message that carries its words in [text], and test values. *)
Definition text_only : Request.playground :=
  {| Request.content :=
       Some [ {| Llm.role := Some "user"; Llm.content := None;
                 Llm.text := Some "Hi";
                 Llm.functionCall := None; Llm.toolCalls := None;
                 Llm.name := None |} ];
     Request.extra := None;
     Request.testValues := Some ∅ |}.

(** A message without a role. *)
Definition no_role : Request.playground :=
  {| Request.content :=
       Some [ {| Llm.role := None; Llm.content := Some "Hi";
                 Llm.text := None;
                 Llm.functionCall := None; Llm.toolCalls := None;
                 Llm.name := None |} ];
     Request.extra := None;
     Request.testValues := None |}.

(** No API key is configured: the constructor of the client throws
    when its options hold none. *)
Definition missing_key : error :=
  OpenAIError "The OPENAI_API_KEY environment variable is missing or empty".

Definition keyless : world :=
  {| orgs := orgs world0; apps := apps world0; runs := runs world0;
     now := now world0; stripe := stripe world0;
     env := {| Llm.OPENROUTER_API_KEY := None; Llm.OPENAI_API_KEY := None |};
     openai_constructor := fun options =>
       match Llm.apiKey options with
       | Some _ => None
       | None => Some missing_key
       end;
     completions := fun _ _ => None;
     trace := [] |}.

Definition to_team : Request.upgrade :=
  {| Request.plan := "team"; Request.period := "monthly";
     Request.origin := "https://app.lunary.ai" |}.

Definition to_pro : Request.upgrade :=
  {| Request.plan := "pro"; Request.period := "monthly";
     Request.origin := "https://app.lunary.ai" |}.

(** The view after a dataset and a checklist were chosen. *)
Definition ready : NewEvaluation.state :=
  NewEvaluation.run
    [ NewEvaluation.ChangeDataset (Some "ds_1");
      NewEvaluation.ChangeChecklist (Some "cl_1") ].

End Sample.

(** ** What a request sends and leaves behind *)

Module Observe.
Import Effects.

Definition is_provider_call (e : event) : bool :=
  match e with
  | LlmCall _ _ => true
  | _ => false
  end.

(** The number of provider calls in a trace. *)
Definition provider_calls (t : list event) : nat :=
  length (List.filter is_provider_call t).

(** An item after [item.content = compileTemplate(item.content,
    testValues)]. *)
Definition compiled_item (testValues : gmap string string)
    (item : Llm.input_message) : Llm.input_message :=
  {| Llm.role := Llm.role item;
     Llm.content :=
       (fun c => Template.compileTemplate c testValues) <$> Llm.content item;
     Llm.text := Llm.text item;
     Llm.functionCall := Llm.functionCall item;
     Llm.toolCalls := Llm.toolCalls item;
     Llm.name := Llm.name item |}.

(** [copy] after the template loop of [POST /playground], when the loop
    runs to its end. *)
Definition compiled (b : Request.playground) : list Llm.input_message :=
  match Request.testValues b with
  | Some testValues => compiled_item testValues <$> Orgs.items b
  | None => Orgs.items b
  end.

(** The argument of the provider call of [POST /playground], with the
    converted messages. *)
Definition request_of (b : Request.playground)
    (messages : list Llm.openai_message) : Llm.request :=
  {| Llm.model := Orgs.model_of (Request.extra b);
     Llm.messages := messages;
     Llm.sampling := from_option Request.sampling ∅ (Request.extra b) |}.

(** What the handler answers after the call of [method]: the stream of
    the response, or the error the call rejected with. *)
Definition answer (w : Effects.world) (method : Llm.method)
    (request : Llm.request) : Effects.result Orgs.body :=
  match Effects.completions w method request with
  | Some e => Effects.Throw e
  | None => Effects.Ok (Orgs.StreamingTextResponse method request)
  end.

(** The client camel-cases the four columns that [POST /upgrade]
    selects. *)
Definition camel_keys `{client : SqlClient} : Prop :=
  column_key "id" = "id" /\ column_key "plan" = "plan" /\
  column_key "stripe_customer" = "stripeCustomer" /\
  column_key "stripe_subscription" = "stripeSubscription".

(** The argument of [checkout.sessions.create] in [POST /upgrade], for
    a row whose customer the handler reads. *)
Definition checkout_of (orgId : string) (b : Request.upgrade)
    (r : Db.org_row) (price : Stripe.price) : Stripe.checkout_params :=
  {| Stripe.client_reference_id := orgId;
     Stripe.customer := Js.or_else (Db.stripe_customer r) None;
     Stripe.checkout_metadata := Orgs.plan_metadata b;
     Stripe.line_items := [(Stripe.price_id price, 1)];
     Stripe.success_url := Request.origin b +:+ "/billing/thank-you";
     Stripe.cancel_url := Request.origin b +:+ "/billing" |}.

(** The routes registered with [orgs.get]. *)
Definition is_get (r : Orgs.http_request) : bool :=
  match r with
  | Orgs.GetOrg _ | Orgs.GetProjects _ | Orgs.GetUsage _ _ => true
  | _ => false
  end.

(** [{loading && progress > 0 && <Progress ... />}] *)
Definition progress_shown (st : NewEvaluation.state) : bool :=
  NewEvaluation.loading st && (0 <? NewEvaluation.progress st)%float.

End Observe.

(** * Properties *)

(** ** compileTemplate *)

Section TemplateFacts.
Import Template.

Lemma append_String a s t : String a s +:+ t = String a (s +:+ t).
Proof. reflexivity. Qed.

Lemma append_Empty t : "" +:+ t = t.
Proof. reflexivity. Qed.

Lemma append_assoc s t u : (s +:+ t) +:+ u = s +:+ t +:+ u.
Proof.
  induction s as [|a s IH]; [reflexivity|].
  rewrite !append_String, IH. reflexivity.
Qed.

Lemma strip_prefix_app p r : Js.strip_prefix p (p +:+ r) = Some r.
Proof.
  induction p as [|a p IH]; rewrite ?append_String, ?append_Empty;
    cbn [Js.strip_prefix].
  - destruct r; reflexivity.
  - rewrite Ascii.eqb_refl. exact IH.
Qed.

Lemma strip_prefix_Some p s r : Js.strip_prefix p s = Some r -> s = p +:+ r.
Proof.
  revert s. induction p as [|a p IH]; intros [|b s] H;
    cbn [Js.strip_prefix] in H; try discriminate.
  - injection H as <-. reflexivity.
  - injection H as <-. reflexivity.
  - destruct (Ascii.eqb_spec a b) as [->|]; [|discriminate].
    rewrite append_String. f_equal. auto.
Qed.

Lemma close2_unfold c t :
  Js.strip_prefix "}}" (String c t) =
  if Ascii.eqb "}" c then Js.strip_prefix "}" t else None.
Proof. reflexivity. Qed.

(** Whether [g ++ "}" ++ x] starts with a closing brace does not
    depend on [x]. *)
Lemma close1_app_indep g x y :
  Js.strip_prefix "}" (g +:+ String "}" x) = None ->
  Js.strip_prefix "}" (g +:+ String "}" y) = None.
Proof.
  destruct g as [|c g]; rewrite ?append_String, ?append_Empty;
    cbn [Js.strip_prefix].
  - rewrite Ascii.eqb_refl. destruct x; discriminate.
  - destruct (Ascii.eqb "}" c); [|reflexivity].
    destruct (g +:+ String "}" x); discriminate.
Qed.



Lemma starts_with_app p x y :
  no_brace p = true ->
  starts_with p (x +:+ String "}" y) = starts_with p x.
Proof.
  unfold starts_with. revert x.
  induction p as [|a p IH]; intros x Hp.
  - destruct x; reflexivity.
  - cbn [no_brace] in Hp. apply andb_prop in Hp as [Ha Hp].
    apply negb_true_iff in Ha.
    destruct x as [|b x]; rewrite ?append_String, ?append_Empty;
      cbn [Js.strip_prefix].
    + rewrite Ha. reflexivity.
    + destruct (Ascii.eqb a b); [apply IH, Hp|reflexivity].
Qed.

(** Whether a line terminator starts at [c] does not depend on what
    follows the closing brace. *)
Lemma at_line_terminator_app c x y :
  at_line_terminator (String c (x +:+ String "}" y)) =
  at_line_terminator (String c x).
Proof.
  unfold at_line_terminator. rewrite <- append_String.
  rewrite !starts_with_app by reflexivity. reflexivity.
Qed.


Lemma lazy_group_sound s g r :
  lazy_group s = Some (g, r) ->
  s = g +:+ String "}" (String "}" r) /\ one_line_name g = true.
Proof.
  unfold one_line_name, closed_by_first.
  revert g r. induction s as [|c s IH]; intros g r;
    rewrite lazy_group_unfold.
  - discriminate.
  - destruct (Js.strip_prefix "}}" (String c s)) as [r'|] eqn:E.
    + intros [= <- <-]. apply strip_prefix_Some in E. split; [exact E|].
      reflexivity.
    + destruct (at_line_terminator (String c s)) eqn:Hl; [discriminate|].
      destruct (lazy_group s) as [[g' r']|] eqn:Hg; [|discriminate].
      intros [= <- <-]. destruct (IH _ _ eq_refl) as [-> Hok].
      split; [reflexivity|].
      rewrite at_line_terminator_app in Hl.
      apply andb_prop in Hok as [Hc Hl'].
      apply negb_true_iff in Hc, Hl'.
      rewrite !append_String. cbn [occurs has_line_terminator].
      rewrite Hl, Hl', Hc. rewrite close2_unfold in E |- *.
      destruct (Ascii.eqb "}" c); [|reflexivity].
      rewrite (close1_app_indep _ _ "" E). reflexivity.
Qed.

Lemma token_append name rest :
  token name +:+ rest =
  String "{" (String "{" (name +:+ String "}" (String "}" rest))).
Proof.
  unfold token.
  change ("{{" +:+ name +:+ "}}") with (String "{" (String "{" (name +:+ "}}"))).
  rewrite !append_String, append_assoc. reflexivity.
Qed.


Lemma match_here_sound s name rest :
  match_here s = Some (name, rest) ->
  s = token name +:+ rest /\ one_line_name name = true.
Proof.
  unfold match_here.
  destruct (Js.strip_prefix "{{" s) as [s'|] eqn:E; [|discriminate].
  intros [-> Hok]%lazy_group_sound. apply strip_prefix_Some in E.
  split; [|exact Hok]. rewrite E, token_append. reflexivity.
Qed.

Lemma replace_all_cons f c s :
  replace_all f (String c s) =
  match match_here (String c s) with
  | Some (g1, rest) => f g1 +:+ replace_all f rest
  | None => String c (replace_all f s)
  end.
Proof.
  simp replace_all.
  generalize (inspect (match_here (String c s))).
  intros [[[g r]|] e]; simpl; rewrite e; reflexivity.
Qed.

Example compileTemplate_greeting :
  compileTemplate "Hello {{name}}, {{x}}{{y}}!{{" {[ "name" := "Bob"; "x" := "" ]}
  = "Hello Bob, !{{".
Proof. reflexivity. Qed.

Example compileTemplate_shortest_match :
  compileTemplate "{{{a}}}" {[ "{a" := "Z" ]} = "Z}".
Proof. reflexivity. Qed.




(** The properties that every object inherits show through the map. *)
Example compileTemplate_inherited :
  compileTemplate "{{constructor}}" ∅ = "function Object() { [native code] }" /\
  compileTemplate "{{toString}}" ∅ = "function toString() { [native code] }" /\
  compileTemplate "{{__proto__}}" ∅ = "[object Object]" /\
  compileTemplate "{{toString}}" {[ "toString" := "" ]} = "".
Proof. repeat split; reflexivity. Qed.

(** The line and paragraph separators end a line as LF and CR do. *)
Example compileTemplate_separators :
  compileTemplate ("{{a" +:+ LS +:+ "b}}") {[ "a" +:+ LS +:+ "b" := "X" ]}
  = "{{a" +:+ LS +:+ "b}}" /\
  compileTemplate ("{{a" +:+ PS +:+ "}} {{a}}") {[ "a" := "X" ]}
  = "{{a" +:+ PS +:+ "}} X".
Proof. split; reflexivity. Qed.

End TemplateFacts.

(** ** POST /playground *)

Ltac run_M :=
  unfold mbind, Effects.M_bind, mret, Effects.M_ret, Effects.emit,
    Effects.gets, Effects.modify, Effects.throw, Effects.lift,
    Effects.new_OpenAI, Orgs.call;
  cbv beta iota.

Section PlaygroundFacts.
Import Effects Orgs Observe.
Context `{client : SqlClient}.

Lemma for_each_compile tv items w :
  (exists copy, for_each (compile_item tv) items w = (Ok copy, w)) \/
  (exists msg, for_each (compile_item tv) items w = (Throw (TypeError msg), w)).
Proof.
  induction items as [|item items IH]; cbn [for_each].
  - left. eexists. reflexivity.
  - run_M. destruct (compile_item tv item w) as [r w'] eqn:E.
    unfold compile_item in E.
    destruct (Llm.content item) as [c|]; injection E as <- <-.
    + destruct IH as [[copy ->]|[msg ->]]; [left|right]; eexists; reflexivity.
    + right. eexists. reflexivity.
Qed.

Lemma for_each_compiled tv items w :
  Forall (fun m => is_Some (Llm.content m)) items ->
  for_each (compile_item tv) items w = (Ok (compiled_item tv <$> items), w).
Proof.
  induction 1 as [|item items [c Hc] _ IH]; cbn [for_each]; [reflexivity|].
  run_M. destruct (compile_item tv item w) as [r w'] eqn:E.
  unfold compile_item in E. rewrite Hc in E. injection E as <- <-.
  rewrite IH, fmap_cons. unfold compiled_item. rewrite Hc. reflexivity.
Qed.

Lemma for_each_compile_Ok tv items w copy :
  for_each (compile_item tv) items w = (Ok copy, w) ->
  Forall (fun m => is_Some (Llm.content m)) items.
Proof.
  revert copy. induction items as [|item items IH]; intros copy;
    [constructor|].
  cbn [for_each]. run_M.
  destruct (compile_item tv item w) as [r w1] eqn:E.
  unfold compile_item in E.
  destruct (Llm.content item) as [c|] eqn:Hc; injection E as <- <-;
    [|discriminate].
  destruct (for_each_compile tv items w) as [[copy' E']|[msg E']];
    rewrite E'; [|discriminate].
  intros _. constructor; [exists c; exact Hc|]. eapply IH, E'.
Qed.

(** The conversion succeeds exactly when every message has a role. *)
Lemma convert_cases input :
  (Forall (fun m => is_Some (Llm.role m)) input /\
   exists messages,
     convertInputToOpenAIMessages input = Ok messages /\
     Forall2 (fun m m' => convert_message m = Ok m') input messages) \/
  (~ Forall (fun m => is_Some (Llm.role m)) input /\
   exists msg, convertInputToOpenAIMessages input = Throw (TypeError msg)).
Proof.
  unfold convertInputToOpenAIMessages.
  induction input as [|m input IH]; cbn [try_map].
  - left. split; [constructor|]. eexists. split; [reflexivity|constructor].
  - destruct (convert_message m) as [m'|e] eqn:Em.
    + assert (Hm : is_Some (Llm.role m)).
      { unfold convert_message in Em.
        destruct (Llm.role m); [eexists; reflexivity|discriminate]. }
      destruct IH as [[Hall (ms & -> & H2)]|[Hno (msg & ->)]].
      * left. split; [constructor; assumption|].
        eexists. split; [reflexivity|]. constructor; assumption.
      * right. split; [|eexists; reflexivity].
        intros [_ Hall]%Forall_cons. exact (Hno Hall).
    + right. unfold convert_message in Em.
      destruct (Llm.role m) eqn:Hr; [discriminate|]. injection Em as <-.
      split; [|eexists; reflexivity].
      intros [[r Hm] _]%Forall_cons. congruence.
Qed.

Lemma guard_of_row orgId w r :
  column_key "play_allowance" = "playAllowance" ->
  orgs w !! orgId = Some r ->
  allowance_exhausted (head (option_list (allowance_row <$> orgs w !! orgId)))
  = (Db.play_allowance r <=? 0).
Proof.
  intros Hkey Hr. rewrite Hr. unfold allowance_exhausted, allowance_row.
  change (head (option_list (?f <$> Some ?x))) with (Some (f x)).
  cbn [mbind option_bind]. rewrite Hkey, lookup_singleton_eq. reflexivity.
Qed.


(** The ways through the handler past the guard: one for each
    statement that throws, and the call. *)
Lemma post_playground_past_guard orgId b w :
  allowance_exhausted (head (option_list (allowance_row <$> orgs w !! orgId)))
  = false ->
  let w2 := with_orgs (alter Db.decrement_allowance orgId)
              (record (SqlDecrementPlayAllowance orgId)
                 (record (SqlSelectPlayAllowance orgId) w)) in
  let model := model_of (Request.extra b) in
  let method := select_method (env w) model in
  (Request.content b = None /\
   post_playground orgId b w = (Throw content_not_iterable, w2)) \/
  (is_Some (Request.content b) /\ ~ templates_compile b /\
   exists msg, post_playground orgId b w = (Throw (TypeError msg), w2)) \/
  (is_Some (Request.content b) /\ templates_compile b /\ ~ roles_given b /\
   exists msg, post_playground orgId b w = (Throw (TypeError msg), w2)) \/
  (is_Some (Request.content b) /\ templates_compile b /\ roles_given b /\
   Js.includes ANTHROPIC_MODELS model = false /\
   exists e, openai_constructor w (openAIparams (env w) model) = Some e /\
             post_playground orgId b w = (Throw e, w2)) \/
  (prepared b w /\
   exists messages,
     convertInputToOpenAIMessages (compiled b) = Ok messages /\
     post_playground orgId b w =
     (answer w method (request_of b messages),
      record (LlmCall method (request_of b messages)) w2)).
Proof.
  intros Hguard w2 model method.
  unfold post_playground, select_play_allowance, decrement_play_allowance.
  run_M. cbn [orgs record]. rewrite Hguard. fold w2.
  unfold prepared, templates_compile, roles_given, client_constructed,
    compiled, items.
  destruct (Request.content b) as [content|] eqn:Hcontent; cbn [default];
    [|left; split; reflexivity].
  right.
  assert (Hsome : is_Some (Some content)) by (eexists; reflexivity).
  (* the template loop *)
  assert (Hloop :
    match Request.testValues b with
    | Some tv => Forall (fun m => is_Some (Llm.content m)) content
    | None => True
    end ->
    (match Request.testValues b with
     | Some testValues => for_each (compile_item testValues) content
     | None => fun w => (Ok content, w)
     end) w2 =
    (Ok (match Request.testValues b with
         | Some tv => compiled_item tv <$> content
         | None => content
         end), w2)).
  { destruct (Request.testValues b) as [tv|]; [|reflexivity].
    apply for_each_compiled. }
  assert (Hfail :
    ~ match Request.testValues b with
      | Some tv => Forall (fun m => is_Some (Llm.content m)) content
      | None => True
      end ->
    exists msg,
      (match Request.testValues b with
       | Some testValues => for_each (compile_item testValues) content
       | None => fun w => (Ok content, w)
       end) w2 = (Throw (TypeError msg), w2)).
  { destruct (Request.testValues b) as [tv|]; [|intros H; destruct (H I)].
    intros Hno.
    destruct (for_each_compile tv content w2) as [[copy E]|[msg E]].
    - destruct Hno. eapply for_each_compile_Ok, E.
    - exists msg. exact E. }
  set (loop := match Request.testValues b with
               | Some testValues => for_each (compile_item testValues) content
               | None => fun w => (Ok content, w)
               end) in *.
  set (ok := match Request.testValues b with
             | Some tv => Forall (fun m => is_Some (Llm.content m)) content
             | None => True
             end) in *.
  assert (Hdec : ok \/ ~ ok).
  { subst ok. destruct (Request.testValues b); [|left; exact I].
    destruct (decide (Forall (fun m => is_Some (Llm.content m)) content));
      [left|right]; assumption. }
  destruct Hdec as [Hok|Hno].
  2:{ left. split; [exact Hsome|]. split; [exact Hno|].
      destruct (Hfail Hno) as [msg E]. exists msg. rewrite E. reflexivity. }
  right. rewrite (Hloop Hok).
  set (copy := match Request.testValues b with
               | Some tv => compiled_item tv <$> content
               | None => content
               end) in *.
  assert (Hroles : Forall (fun m => is_Some (Llm.role m)) copy <->
                   Forall (fun m => is_Some (Llm.role m)) content).
  { subst copy. destruct (Request.testValues b); [|reflexivity].
    rewrite Forall_fmap. apply Forall_iff. intros m. reflexivity. }
  destruct (convert_cases copy) as [[Hr (messages & Hconv & _)]|[Hr (msg & Hconv)]];
    rewrite Hconv.
  2:{ left. split; [exact Hsome|]. split; [exact Hok|].
      split; [rewrite <- Hroles; exact Hr|]. exists msg. reflexivity. }
  right. apply Hroles in Hr.
  subst method. unfold select_method. fold model.
  destruct (Js.includes ANTHROPIC_MODELS model) eqn:Hanth.
  - right. split; [repeat split; try assumption; left; reflexivity|].
    exists messages. split; [exact Hconv|].
    unfold answer, request_of. run_M. cbn [completions record with_orgs].
    change (completions w2) with (completions w).
      destruct (completions w _ _); reflexivity.
  - run_M. change (env w2) with (env w).
    change (openai_constructor w2) with (openai_constructor w).
    destruct (openai_constructor w (openAIparams (env w) model)) as [e|] eqn:Hnew.
    + left. repeat split; try assumption. exists e. split; reflexivity.
    + right. split; [repeat split; try assumption; right; reflexivity|].
      exists messages. split; [exact Hconv|].
      unfold answer, request_of. run_M. cbn [completions record with_orgs].
      change (completions w2) with (completions w).
      destruct (completions w _ _); reflexivity.
Qed.

(** The handler, whether the guard fires or not. *)
Lemma post_playground_cases orgId b w :
  let w1 := record (SqlSelectPlayAllowance orgId) w in
  let w2 := with_orgs (alter Db.decrement_allowance orgId)
              (record (SqlDecrementPlayAllowance orgId) w1) in
  let method := select_method (env w) (model_of (Request.extra b)) in
  if allowance_exhausted (head (option_list (allowance_row <$> orgs w !! orgId)))
  then post_playground orgId b w = (Throw no_allowance_left, w1)
  else (~ prepared b w /\
        exists e,
          post_playground orgId b w = (Throw e, w2) /\
          ((exists msg, e = TypeError msg) \/
           openai_constructor w
             (openAIparams (env w) (model_of (Request.extra b))) = Some e)) \/
       (prepared b w /\
        exists messages,
          convertInputToOpenAIMessages (compiled b) = Ok messages /\
          post_playground orgId b w =
          (answer w method (request_of b messages),
           record (LlmCall method (request_of b messages)) w2)).
Proof.
  intros w1 w2 method.
  destruct (allowance_exhausted _) eqn:Hguard.
  - unfold post_playground, select_play_allowance. run_M. cbn [orgs record].
    rewrite Hguard. reflexivity.
  - destruct (post_playground_past_guard orgId b w Hguard)
      as [[Hc E]|[(Hc & Ht & msg & E)|[(Hc & Ht & Hr & msg & E)|
          [(Hc & Ht & Hr & Ha & e & Hnew & E)|Hcall]]]].
    + left. split; [intros ([c Hc'] & _); congruence|].
      eexists. split; [exact E|]. left. eexists. reflexivity.
    + left. split; [intros (_ & Ht' & _); exact (Ht Ht')|].
      eexists. split; [exact E|]. left. eexists. reflexivity.
    + left. split; [intros (_ & _ & Hr' & _); exact (Hr Hr')|].
      eexists. split; [exact E|]. left. eexists. reflexivity.
    + left. split; [intros (_ & _ & _ & [Ha'|Hnew']); congruence|].
      eexists. split; [exact E|]. right. exact Hnew.
    + right. exact Hcall.
Qed.

(** C1: when the stored allowance of the organisation is zero or less
    (and the client exposes [play_allowance] as [playAllowance], the
    property the guard reads), the handler throws the "No allowance
    left" error right after its select: the rows of [org] and Stripe
    are as before, and the trace gained the select only, neither the
    decrement nor a provider call. *)
Theorem playground_no_allowance_left orgId b w r :
  column_key "play_allowance" = "playAllowance" ->
  orgs w !! orgId = Some r ->
  Db.play_allowance r <= 0 ->
  exists w',
    post_playground orgId b w = (Throw no_allowance_left, w') /\
    orgs w' = orgs w /\ stripe w' = stripe w /\
    trace w' = trace w ++ [SqlSelectPlayAllowance orgId].
Proof.
  intros Hkey Hr Hle.
  pose proof (post_playground_cases orgId b w) as Hc. cbv zeta in Hc.
  assert (Hg : allowance_exhausted
                 (head (option_list (allowance_row <$> orgs w !! orgId)))
               = true).
  { rewrite Hr. unfold allowance_exhausted, allowance_row.
    change (head (option_list (?f <$> Some ?x))) with (Some (f x)).
    cbn [mbind option_bind]. rewrite Hkey, lookup_singleton_eq.
    apply Z.leb_le, Hle. }
  rewrite Hg in Hc.
  eexists. split; [exact Hc|]. repeat split.
Qed.

(** C10 (amended): for an [orgId] without a row in [org] the guard does
    not fire: the handler executes the decrement, which changes no row.
    Then, when nothing throws while the request is prepared (the body
    has a content array, the template loop runs to its end, every
    message has a role, and the client of the model is constructed), it
    calls the method selected for the model, once, and answers with the
    stream of the response, or throws the error the call rejected with;
    and when the preparation throws, the handler throws that error, a
    [TypeError] or the error of the constructor, and calls no
    provider. *)
Theorem playground_unknown_org orgId b w :
  orgs w !! orgId = None ->
  let out := post_playground orgId b w in
  let method := select_method (env w) (model_of (Request.extra b)) in
  orgs out.2 = orgs w /\
  (exists rest,
      trace out.2 =
      trace w ++ SqlSelectPlayAllowance orgId
              :: SqlDecrementPlayAllowance orgId :: rest) /\
  (prepared b w ->
   exists messages,
     convertInputToOpenAIMessages (compiled b) = Ok messages /\
     out.1 = answer w method (request_of b messages) /\
     trace out.2 =
     trace w ++ [SqlSelectPlayAllowance orgId;
                 SqlDecrementPlayAllowance orgId;
                 LlmCall method (request_of b messages)]) /\
  (~ prepared b w ->
   (exists e,
       out.1 = Throw e /\
       ((exists msg, e = TypeError msg) \/
        openai_constructor w
          (openAIparams (env w) (model_of (Request.extra b))) = Some e)) /\
   trace out.2 =
   trace w ++ [SqlSelectPlayAllowance orgId;
               SqlDecrementPlayAllowance orgId]).
Proof.
  intros Hnone out method. subst out.
  pose proof (post_playground_cases orgId b w) as Hc. cbv zeta in Hc.
  rewrite Hnone in Hc. cbn in Hc. fold method in Hc.
  assert (Halter : alter Db.decrement_allowance orgId (orgs w) = orgs w).
  { apply map_eq. intros i. rewrite lookup_alter.
    case_decide; subst; rewrite ?Hnone; reflexivity. }
  destruct Hc as [(Hno & e & -> & He)|(Hok & messages & Hconv & ->)];
    cbn [fst snd orgs trace with_orgs record].
  - split; [exact Halter|]. split; [|split].
    + exists []. rewrite <- app_assoc. reflexivity.
    + intros Hok. destruct (Hno Hok).
    + intros _. split; [exists e; split; [reflexivity|exact He]|].
      rewrite <- app_assoc. reflexivity.
  - split; [exact Halter|]. split; [|split].
    + eexists. rewrite <- !app_assoc. reflexivity.
    + intros _. exists messages. split; [exact Hconv|].
      split; [reflexivity|]. rewrite <- !app_assoc. reflexivity.
    + intros Hno. destruct (Hno Hok).
Qed.


End PlaygroundFacts.

Lemma playground_no_allowance_left_witness :
  @column_key Orgs.camel_client "play_allowance" = "playAllowance" /\
  Effects.orgs Sample.world0 !! "org_1" = Some Sample.acme /\
  Db.play_allowance Sample.acme <= 0 /\
  exists w',
    Orgs.post_playground (client := Orgs.camel_client) "org_1" Sample.prompt
      Sample.world0 = (Effects.Throw Orgs.no_allowance_left, w') /\
    Effects.orgs w' = Effects.orgs Sample.world0 /\
    Effects.stripe w' = Effects.stripe Sample.world0 /\
    Effects.trace w' =
    Effects.trace Sample.world0 ++ [Effects.SqlSelectPlayAllowance "org_1"].
Proof.
  split; [reflexivity|]. split; [reflexivity|]. split; [reflexivity|].
  apply (playground_no_allowance_left (client := Orgs.camel_client)
           "org_1" Sample.prompt Sample.world0 Sample.acme);
    [reflexivity | reflexivity | discriminate].
Defined.

(** [org_2] has three calls left: the prompt is compiled, sent to the
    OpenAI client under the default model, and two calls are left. *)
Example playground_served :
  let out := Orgs.post_playground (client := Orgs.camel_client) "org_2"
               Sample.prompt Sample.world0 in
  let request :=
    {| Llm.model := "gpt-3.5-turbo";
       Llm.messages :=
         [ {| Llm.m_role := "user"; Llm.m_content := Some "Hello Bob";
              Llm.m_function_call := None; Llm.m_tool_calls := None;
              Llm.m_name := None |} ];
       Llm.sampling := ∅ |} in
  let method :=
    Llm.OpenAIChatCompletions
      {| Llm.apiKey := Some "sk-oa"; Llm.baseURL := None;
         Llm.defaultHeaders := [] |} in
  out.1 = Effects.Ok (Orgs.StreamingTextResponse method request) /\
  Db.play_allowance <$> Effects.orgs out.2 !! "org_2" = Some 2 /\
  Effects.trace out.2 =
  [ Effects.SqlSelectPlayAllowance "org_2";
    Effects.SqlDecrementPlayAllowance "org_2";
    Effects.LlmCall method request ].
Proof. vm_compute. repeat split. Qed.

(** Without an API key the constructor of the client throws: the
    allowance is spent and no provider is called. *)
Example playground_without_key :
  let out := Orgs.post_playground (client := Orgs.camel_client) "org_2"
               Sample.prompt Sample.keyless in
  out.1 = Effects.Throw Sample.missing_key /\
  Db.play_allowance <$> Effects.orgs out.2 !! "org_2" = Some 2 /\
  Effects.trace out.2 =
  [ Effects.SqlSelectPlayAllowance "org_2";
    Effects.SqlDecrementPlayAllowance "org_2" ].
Proof. vm_compute. repeat split. Qed.

(** A message without a role: [role.replace] throws, after the
    decrement and before any call. *)
Example playground_without_role :
  let out := Orgs.post_playground (client := Orgs.camel_client) "org_2"
               Sample.no_role Sample.world0 in
  out.1 =
  Effects.Throw
    (Effects.TypeError
       "Cannot read properties of undefined (reading 'replace')") /\
  Db.play_allowance <$> Effects.orgs out.2 !! "org_2" = Some 2 /\
  Effects.trace out.2 =
  [ Effects.SqlSelectPlayAllowance "org_2";
    Effects.SqlDecrementPlayAllowance "org_2" ].
Proof. vm_compute. repeat split. Qed.

(** C10, as stated, fails: with test values and a message without
    content, [compileTemplate] calls [replace] on [undefined]; the
    handler throws a [TypeError] after the decrement and calls no
    provider. *)
Lemma playground_unknown_org_type_error :
  ~ Orgs.unknown_org_reaches_provider (client := Orgs.camel_client).
Proof.
  intros Hclaim.
  destruct (Hclaim "org_9" Sample.text_only Sample.world0 eq_refl)
    as [request Hcall].
  assert (Htrace :
    Effects.trace
      (Orgs.post_playground (client := Orgs.camel_client) "org_9"
         Sample.text_only Sample.world0).2 =
    [ Effects.SqlSelectPlayAllowance "org_9";
      Effects.SqlDecrementPlayAllowance "org_9" ])
    by (vm_compute; reflexivity).
  rewrite Htrace in Hcall.
  apply elem_of_cons in Hcall as [Hcall|Hcall]; [discriminate Hcall|].
  apply list_elem_of_singleton in Hcall. discriminate Hcall.
Qed.

Lemma prompt_prepared : Orgs.prepared Sample.prompt Sample.world0.
Proof.
  split; [eexists; reflexivity|]. split; [|split; [|right; reflexivity]].
  - repeat constructor. exists "Hello {{name}}". reflexivity.
  - repeat constructor. exists "user". reflexivity.
Qed.

Lemma playground_unknown_org_witness :
  Effects.orgs Sample.world0 !! "org_9" = None /\
  Orgs.prepared Sample.prompt Sample.world0 /\
  exists messages,
    (Orgs.post_playground (client := Orgs.camel_client) "org_9" Sample.prompt
       Sample.world0).1 =
    Observe.answer Sample.world0
      (Llm.OpenAIChatCompletions
         (Orgs.openai_options (Effects.env Sample.world0)))
      (Observe.request_of Sample.prompt messages).
Proof.
  split; [reflexivity|]. split; [exact prompt_prepared|].
  destruct (playground_unknown_org (client := Orgs.camel_client)
              "org_9" Sample.prompt Sample.world0 eq_refl)
    as (_ & _ & Hcall & _).
  destruct (Hcall prompt_prepared) as (messages & _ & Hout & _).
  exists messages. exact Hout.
Defined.


(** ** POST /upgrade *)

Section UpgradeFacts.
Import Effects Orgs.
Context `{client : SqlClient}.

(** The ways through the handler. *)
Lemma post_upgrade_cases orgId b w :
  let key := Request.plan b +:+ "_" +:+ Request.period b in
  let out := post_upgrade orgId b w in
  let w1 := record (StripePricesList key) w in
  let w2 := record (SqlSelectOrgBilling orgId) w1 in
  match Stripe.prices_list key (stripe w) with
  | [] => out = (Throw no_price_found, w1)
  | price :: _ =>
      match orgs w !! orgId with
      | None => out = (Throw org_not_found, w2)
      | Some r =>
          let org := billing_row orgId r in
          let id := prop org "stripeSubscription" in
          let w3 := record (StripeSubscriptionsRetrieve id) w2 in
          if negb (Js.truthy (prop org "stripe_subscription")) then
            exists params,
              Stripe.client_reference_id params = orgId /\
              Stripe.line_items params = [(Stripe.price_id price, 1)] /\
              out =
              (Ok (OkWithUrl (Stripe.session_url (stripe w)
                                (length (Stripe.sessions (stripe w))))),
               with_stripe (Stripe.add_session params)
                 (record (StripeCheckoutSessionsCreate params) w2))
          else
            match id ≫= (fun i => Stripe.subscriptions (stripe w) !! i) with
            | None => out = (Throw no_such_subscription, w3)
            | Some subscription =>
                match Stripe.items subscription with
                | [] => exists msg, out = (Throw (TypeError msg), w3)
                | first :: _ =>
                    exists i u,
                      id = Some i /\
                      Stripe.new_items u =
                      [ {| Stripe.item_id := Stripe.item_id first;
                           Stripe.item_price := Stripe.price_id price |} ] /\
                      out =
                      (Ok OkOnly,
                       with_orgs (alter (Db.set_plan (Request.plan b)) orgId)
                         (record (SqlUpdateOrgPlan orgId (Request.plan b))
                            (with_stripe (Stripe.update_subscription i u)
                               (record (StripeSubscriptionsUpdate id u) w3))))
                end
            end
      end
  end.
Proof.
  intros key out w1 w2. subst out w1 w2.
  cbv beta iota zeta delta
    [post_upgrade stripe_prices_list select_org_billing
     stripe_checkout_sessions_create stripe_subscriptions_retrieve
     stripe_subscriptions_update update_org_plan find_subscription
     mbind M_bind mret M_ret emit gets modify throw].
  fold key. cbn [stripe record].
  destruct (Stripe.prices_list key (stripe w)) as [|price ?]; [reflexivity|].
  cbn [orgs record].
  destruct (orgs w !! orgId) as [r|];
    cbn [fmap option_fmap option_map option_list option_rect]; [|reflexivity].
  destruct (negb (Js.truthy (prop (billing_row orgId r) "stripe_subscription"))).
  - eexists. split; [|split]; cycle 2.
    + cbn [stripe record with_stripe Stripe.session_url Stripe.add_session
           Stripe.sessions].
      reflexivity.
    + reflexivity.
    + reflexivity.
  - cbn [stripe record].
    destruct (prop (billing_row orgId r) "stripeSubscription") as [i|];
      cbn [option_bind]; [|reflexivity].
    destruct (Stripe.subscriptions (stripe w) !! i) as [sub|] eqn:Hs;
      [|reflexivity].
    destruct (Stripe.items sub) as [|first ?]; [eexists; reflexivity|].
    cbn [stripe record]. rewrite Hs.
    eexists _, _. split; [reflexivity|]. split; [|reflexivity]. reflexivity.
Qed.

(** C7 (amended): the handler throws "No price found for this plan and
    period" exactly when Stripe lists no price for the lookup key
    [plan_period], and "Org not found" exactly when it lists one and no
    row of [org] has the id; on either error the rows of [org] and the
    state of Stripe are as before, and the handler has done nothing but
    list the prices and, for the second error, select the row. *)
Theorem upgrade_errors orgId b w :
  let key := Request.plan b +:+ "_" +:+ Request.period b in
  let out := post_upgrade orgId b w in
  (out.1 = Throw no_price_found <-> Stripe.prices_list key (stripe w) = []) /\
  (out.1 = Throw org_not_found <->
   Stripe.prices_list key (stripe w) <> [] /\ orgs w !! orgId = None) /\
  (out.1 = Throw no_price_found ->
   orgs out.2 = orgs w /\ stripe out.2 = stripe w /\
   trace out.2 = trace w ++ [StripePricesList key]) /\
  (out.1 = Throw org_not_found ->
   orgs out.2 = orgs w /\ stripe out.2 = stripe w /\
   trace out.2 = trace w ++ [StripePricesList key; SqlSelectOrgBilling orgId]).
Proof.
  intros key out. pose proof (post_upgrade_cases orgId b w) as Hc.
  cbv zeta in Hc. fold key out in Hc.
  destruct (Stripe.prices_list key (stripe w)) as [|price ps].
  { rewrite Hc. cbn. repeat split; try discriminate; try tauto. }
  destruct (orgs w !! orgId) as [r|].
  2:{ rewrite Hc. cbn. rewrite <- app_assoc.
      repeat split; try discriminate; try tauto. }
  assert (Hne : out.1 <> Throw no_price_found /\ out.1 <> Throw org_not_found).
  { destruct (negb _).
    - destruct Hc as (params & _ & _ & ->). split; discriminate.
    - destruct (_ ≫= _) as [sub|]; [|rewrite Hc; split; discriminate].
      destruct (Stripe.items sub) as [|first ?].
      + destruct Hc as [msg ->]. split; discriminate.
      + destruct Hc as (i & u & _ & _ & ->). split; discriminate. }
  destruct Hne as [Hp Ho].
  split; [|split; [|split]].
  - split; [intros E; contradiction | discriminate].
  - split; [intros E; contradiction | intros [_ E]; discriminate].
  - intros E; contradiction.
  - intros E; contradiction.
Qed.

Lemma billing_row_subscription orgId r k :
  other_columns_apart ->
  k = "stripe_subscription" \/ k = "stripeSubscription" ->
  prop (billing_row orgId r) k =
  if decide (column_key "stripe_subscription" = k)
  then Db.stripe_subscription r else None.
Proof.
  unfold other_columns_apart. rewrite !Forall_cons.
  intros ([Hi1 Hi2] & [Hp1 Hp2] & [Hc1 Hc2] & _) Hk.
  unfold prop, billing_row. rewrite lookup_insert.
  case_decide; [reflexivity|].
  rewrite !lookup_insert_ne, lookup_empty by (destruct Hk; congruence).
  reflexivity.
Qed.

(** The branch of C2 for an organisation without a subscription: when
    Stripe lists a price for the plan and the row has no
    [stripe_subscription], the handler creates a checkout session for
    that price and answers with its URL; the rows of [org] stay. *)
Lemma upgrade_without_subscription orgId b w r price prices :
  other_columns_apart ->
  Stripe.prices_list (Request.plan b +:+ "_" +:+ Request.period b) (stripe w)
  = price :: prices ->
  orgs w !! orgId = Some r ->
  Db.stripe_subscription r = None ->
  exists params,
    Stripe.client_reference_id params = orgId /\
    Stripe.line_items params = [(Stripe.price_id price, 1)] /\
    (post_upgrade orgId b w).1 =
    Ok (OkWithUrl (Stripe.session_url (stripe w)
                     (length (Stripe.sessions (stripe w))))) /\
    Stripe.sessions (stripe (post_upgrade orgId b w).2) =
    Stripe.sessions (stripe w) ++ [params] /\
    orgs (post_upgrade orgId b w).2 = orgs w.
Proof.
  intros Hapart Hprice Hr Hnone.
  pose proof (post_upgrade_cases orgId b w) as Hc. cbv zeta in Hc.
  rewrite Hprice, Hr in Hc.
  rewrite !(billing_row_subscription orgId r) in Hc by auto.
  rewrite Hnone in Hc.
  assert (Htest : Js.truthy
            (if decide (column_key "stripe_subscription" = "stripe_subscription")
             then None else None) = false) by (case_decide; reflexivity).
  rewrite Htest in Hc. cbn [negb] in Hc.
  destruct Hc as (params & Hid & Hitems & ->).
  exists params. repeat split; assumption.
Qed.

(** C2, the branch for an organisation with a subscription: whatever
    the spelling under which the client exposes [stripe_subscription],
    the handler tests [org.stripe_subscription] and then reads
    [org.stripeSubscription], so one of the two is [undefined]: it never
    answers [{ ok: true }] after an update; the rows of [org] and the
    subscriptions of Stripe are as before the request. *)
Theorem upgrade_never_updates orgId b w :
  other_columns_apart ->
  let out := post_upgrade orgId b w in
  out.1 <> Ok OkOnly /\
  orgs out.2 = orgs w /\
  Stripe.subscriptions (stripe out.2) = Stripe.subscriptions (stripe w).
Proof.
  intros Hapart out. pose proof (post_upgrade_cases orgId b w) as Hc.
  cbv zeta in Hc. fold out in Hc.
  destruct (Stripe.prices_list _ (stripe w)) as [|price ps].
  { rewrite Hc. repeat split. discriminate. }
  destruct (orgs w !! orgId) as [r|].
  2:{ rewrite Hc. repeat split. discriminate. }
  rewrite !(billing_row_subscription orgId r) in Hc by auto.
  destruct (negb _) eqn:Htest.
  { destruct Hc as (params & _ & _ & ->). repeat split. discriminate. }
  destruct (decide (column_key "stripe_subscription" = "stripe_subscription"))
    as [Heq|]; [|discriminate Htest].
  destruct (decide (column_key "stripe_subscription" = "stripeSubscription"))
    as [Heq'|]; [congruence|].
  cbn in Hc. rewrite Hc. repeat split. discriminate.
Qed.

End UpgradeFacts.

(** C7, as stated, fails: for an id without a row and a plan without a
    price the handler throws the first error, not "Org not found". *)
Lemma upgrade_no_price_before_org :
  ~ Orgs.org_not_found_exactly_without_row (client := Orgs.camel_client).
Proof.
  intros Hiff.
  destruct (Hiff "org_9" Sample.to_team Sample.world0) as [_ Hthrow].
  specialize (Hthrow eq_refl).
  pose proof (post_upgrade_cases (client := Orgs.camel_client)
                "org_9" Sample.to_team Sample.world0) as Hc.
  cbv zeta in Hc.
  change (Stripe.prices_list _ (Effects.stripe Sample.world0)) with (@nil Stripe.price) in Hc.
  rewrite Hc in Hthrow. discriminate Hthrow.
Qed.


Lemma upgrade_errors_witness :
  let out := Orgs.post_upgrade (client := Orgs.camel_client) "org_1"
               Sample.to_team Sample.world0 in
  out.1 = Effects.Throw Orgs.no_price_found /\
  Effects.orgs out.2 = Effects.orgs Sample.world0 /\
  Effects.stripe out.2 = Effects.stripe Sample.world0 /\
  Effects.trace out.2 =
  Effects.trace Sample.world0 ++ [Effects.StripePricesList "team_monthly"].
Proof.
  split; [reflexivity|].
  apply (proj1 (proj2 (proj2 (upgrade_errors (client := Orgs.camel_client)
                                "org_1" Sample.to_team Sample.world0)))).
  reflexivity.
Defined.

Lemma upgrade_never_updates_witness :
  Orgs.other_columns_apart (client := Orgs.camel_client) /\
  (Orgs.post_upgrade (client := Orgs.camel_client) "org_1" Sample.to_pro
     Sample.world0).1 <> Effects.Ok Orgs.OkOnly.
Proof.
  assert (Hapart : Orgs.other_columns_apart (client := Orgs.camel_client)).
  { apply (bool_decide_unpack _). vm_compute. exact I. }
  split; [exact Hapart|].
  apply (upgrade_never_updates (client := Orgs.camel_client)
           "org_1" Sample.to_pro Sample.world0 Hapart).
Defined.

(** The organisation [org_1] has the subscription [sub_1] and asks for
    the plan [pro]: with a client that camel-cases column names the
    handler opens a checkout session instead of updating [sub_1], and
    the plan stays [free]. *)
Example upgrade_subscribed_org_camel :
  let out := Orgs.post_upgrade (client := Orgs.camel_client) "org_1"
               Sample.to_pro Sample.world0 in
  out.1 = Effects.Ok (Orgs.OkWithUrl "https://checkout.stripe.com/c/pay") /\
  length (Stripe.sessions (Effects.stripe out.2)) = 1%nat /\
  Db.plan <$> Effects.orgs out.2 !! "org_1" = Some "free" /\
  Stripe.items <$> Stripe.subscriptions (Effects.stripe out.2) !! "sub_1" =
  Some [ {| Stripe.item_id := "si_1"; Stripe.item_price := "price_free" |} ].
Proof. vm_compute. repeat split. Qed.

(** With a client that keeps column names the handler takes the other
    branch and asks Stripe for the subscription [undefined]. *)
Example upgrade_subscribed_org_plain :
  let out := Orgs.post_upgrade (client := Orgs.plain_client) "org_1"
               Sample.to_pro Sample.world0 in
  out.1 = Effects.Throw Effects.no_such_subscription /\
  last (Effects.trace out.2) = Some (Effects.StripeSubscriptionsRetrieve None) /\
  Db.plan <$> Effects.orgs out.2 !! "org_1" = Some "free".
Proof. vm_compute. repeat split. Qed.

(** ** The allowance invariant *)

Section InvariantFacts.
Import Effects Orgs.
Context `{client : SqlClient}.

Lemma alter_allowance_nonneg (f : Db.org_row -> Db.org_row) id w w' :
  orgs w' = alter f id (orgs w) ->
  (forall r, orgs w !! id = Some r -> 0 <= Db.play_allowance r ->
             0 <= Db.play_allowance (f r)) ->
  allowance_nonneg w -> allowance_nonneg w'.
Proof.
  intros Horgs Hf Hinv i r. rewrite Horgs, lookup_alter.
  case_decide as Hi; [subst i|apply Hinv].
  destruct (orgs w !! id) as [r0|] eqn:Hr0; [|discriminate].
  intros [= <-]. eauto.
Qed.

Lemma same_orgs_allowance_nonneg w w' :
  orgs w' = orgs w -> allowance_nonneg w -> allowance_nonneg w'.
Proof. intros Horgs Hinv i r. rewrite Horgs. apply Hinv. Qed.

Lemma post_upgrade_orgs orgId b w :
  orgs (post_upgrade orgId b w).2 = orgs w \/
  orgs (post_upgrade orgId b w).2 =
  alter (Db.set_plan (Request.plan b)) orgId (orgs w).
Proof.
  pose proof (post_upgrade_cases orgId b w) as Hc. cbv zeta in Hc.
  destruct (Stripe.prices_list _ (stripe w)); [rewrite Hc; left; reflexivity|].
  destruct (orgs w !! orgId); [|rewrite Hc; left; reflexivity].
  destruct (negb _); [destruct Hc as (? & _ & _ & ->); left; reflexivity|].
  destruct (_ ≫= _) as [sub|]; [|rewrite Hc; left; reflexivity].
  destruct (Stripe.items sub).
  - destruct Hc as [? ->]. left. reflexivity.
  - destruct Hc as (? & ? & _ & _ & ->). right. reflexivity.
Qed.

Lemma post_playground_allowance_nonneg orgId b w :
  column_key "play_allowance" = "playAllowance" ->
  allowance_nonneg w -> allowance_nonneg (post_playground orgId b w).2.
Proof.
  intros Hkey Hinv.
  pose proof (post_playground_cases orgId b w) as Hc. cbv zeta in Hc.
  destruct (allowance_exhausted _) eqn:Hguard.
  { rewrite Hc. exact Hinv. }
  assert (Hdec : forall r, orgs w !! orgId = Some r ->
                           0 <= Db.play_allowance (Db.decrement_allowance r)).
  { intros r Hr. rewrite Hr in Hguard.
    unfold allowance_exhausted, allowance_row in Hguard.
    change (head (option_list (?f <$> Some ?x))) with (Some (f x)) in Hguard.
    cbn [mbind option_bind] in Hguard.
    rewrite Hkey, lookup_singleton_eq in Hguard.
    apply Z.leb_gt in Hguard. cbn. lia. }
  destruct Hc as [(_ & e & -> & _)|(_ & messages & _ & ->)];
    (eapply alter_allowance_nonneg; [reflexivity| |exact Hinv]);
    intros r Hr _; apply Hdec, Hr.
Qed.

(** C3: when requests are served one at a time (and the client exposes
    [play_allowance] as [playAllowance], the property the guard of the
    playground reads), every handler of the module keeps all allowances
    non-negative, and so does every sequence of requests. *)
Theorem play_allowance_never_negative :
  column_key "play_allowance" = "playAllowance" ->
  (forall r w, allowance_nonneg w -> allowance_nonneg (handle r w).2) /\
  (forall rs w, allowance_nonneg w -> allowance_nonneg (serve rs w)).
Proof.
  intros Hkey.
  assert (Hstep : forall r w,
             allowance_nonneg w -> allowance_nonneg (handle r w).2).
  { intros [orgId|orgId name|orgId|orgId projectId|orgId b|orgId b] w Hinv;
      cbn [handle].
    - exact Hinv.
    - destruct name as [name|]; [|exact Hinv].
      eapply alter_allowance_nonneg; [reflexivity| |exact Hinv].
      intros r _ Hr. exact Hr.
    - exact Hinv.
    - exact Hinv.
    - destruct (post_upgrade_orgs orgId b w) as [Horgs|Horgs].
      + eapply same_orgs_allowance_nonneg; eassumption.
      + eapply alter_allowance_nonneg; [exact Horgs| |exact Hinv].
        intros r _ Hr. exact Hr.
    - apply post_playground_allowance_nonneg; assumption. }
  split; [exact Hstep|].
  intros rs. unfold serve. induction rs as [|r rs IH]; intros w Hinv.
  - exact Hinv.
  - cbn [foldl]. apply IH, Hstep, Hinv.
Qed.

End InvariantFacts.

Lemma play_allowance_never_negative_witness :
  @column_key Orgs.camel_client "play_allowance" = "playAllowance" /\
  Orgs.allowance_nonneg Sample.world0 /\
  Orgs.allowance_nonneg
    (Orgs.serve (client := Orgs.camel_client)
       [ Orgs.PostPlayground "org_2" Sample.prompt;
         Orgs.PostPlayground "org_1" Sample.prompt;
         Orgs.PostUpgrade "org_2" Sample.to_pro ]
       Sample.world0).
Proof.
  assert (Hinv : Orgs.allowance_nonneg Sample.world0).
  { intros id r. unfold Sample.world0. cbn [Effects.orgs].
    rewrite lookup_insert. case_decide.
    - intros [= <-]. discriminate.
    - rewrite lookup_singleton. case_decide; [|discriminate].
      intros [= <-]. discriminate. }
  split; [reflexivity|]. split; [exact Hinv|].
  apply (proj2 (play_allowance_never_negative (client := Orgs.camel_client)
                  eq_refl)), Hinv.
Defined.

(** ** GET /usage *)

Section UsageFacts.
Import Effects Orgs.

Lemma count_on_below x d rows :
  Forall (fun b : Z * nat => b.1 < x) rows -> d < x ->
  Forall (fun b : Z * nat => b.1 < x) (count_on d rows).
Proof.
  intros Hall Hd. induction Hall as [|[d' n] rows Hd' Hall IH]; cbn [count_on].
  - repeat constructor. exact Hd.
  - destruct (d' <? d); [|destruct (d' =? d)]; repeat constructor; auto.
Qed.

Lemma count_on_descending d rows :
  descending rows -> descending (count_on d rows).
Proof.
  unfold descending.
  induction 1 as [|[d' n] rows Hs IH Hall]; cbn [count_on].
  - repeat constructor.
  - destruct (Z.ltb_spec d' d); [|destruct (Z.eqb_spec d' d)].
    + constructor; [constructor; assumption|].
      constructor; [assumption|].
      eapply Forall_impl; [exact Hall|]. cbn. intros; lia.
    + constructor; assumption.
    + constructor; [exact IH|]. apply count_on_below; [exact Hall|cbn; lia].
Qed.

Lemma count_on_positive d rows :
  Forall (fun b : Z * nat => (0 < b.2)%nat) rows ->
  Forall (fun b : Z * nat => (0 < b.2)%nat) (count_on d rows).
Proof.
  induction 1 as [|[d' n] rows Hn Hall IH]; cbn [count_on].
  - repeat constructor.
  - destruct (d' <? d); [|destruct (d' =? d)];
      repeat (apply Forall_cons; split); cbn; auto; lia.
Qed.

Lemma tally_below d rows :
  Forall (fun b : Z * nat => b.1 < d) rows -> tally d rows = 0%nat.
Proof.
  induction 1 as [|[d' n] rows Hd' Hall IH]; cbn [tally]; [reflexivity|].
  cbn in Hd'. destruct (Z.eqb_spec d' d); [lia|exact IH].
Qed.

Lemma tally_count_on d d' rows :
  descending rows ->
  tally d' (count_on d rows) =
  (tally d' rows + if (d =? d')%Z then 1 else 0)%nat.
Proof.
  unfold descending.
  induction 1 as [|[e n] rows Hs IH Hall]; cbn [count_on tally].
  - destruct (d =? d'); reflexivity.
  - destruct (Z.ltb_spec e d); [|destruct (Z.eqb_spec e d)]; cbn [tally].
    + destruct (Z.eqb_spec d d'); [|lia].
      subst d'. destruct (Z.eqb_spec e d); [lia|].
      rewrite tally_below; [reflexivity|].
      eapply Forall_impl; [exact Hall|]. cbn. intros; lia.
    + subst e. destruct (Z.eqb_spec d d'); [lia|lia].
    + destruct (Z.eqb_spec e d').
      * destruct (Z.eqb_spec d d'); [lia|lia].
      * exact IH.
Qed.

Lemma elem_of_tally d n rows :
  descending rows ->
  Forall (fun b : Z * nat => (0 < b.2)%nat) rows ->
  (d, n) ∈ rows <-> (0 < n)%nat /\ tally d rows = n.
Proof.
  unfold descending.
  induction 1 as [|[e m] rows Hs IH Hall]; intros Hpos; cbn [tally].
  - split; [intros Hin; inversion Hin|intros [? <-]; lia].
  - apply Forall_cons in Hpos as [Hm Hpos]. cbn in Hm.
    rewrite elem_of_cons, (IH Hpos).
    destruct (Z.eqb_spec e d) as [->|Hne].
    + rewrite tally_below.
      2:{ eapply Forall_impl; [exact Hall|]. cbn. intros; lia. }
      split.
      * intros [[= ->]|[? <-]]; [split; [assumption|reflexivity]|lia].
      * intros [? <-]. left. reflexivity.
    + split.
      * intros [[= ? ?]|?]; [congruence|assumption].
      * intros ?. right. assumption.
Qed.

Lemma group_by_day_spec days :
  descending (group_by_day days) /\
  Forall (fun b : Z * nat => (0 < b.2)%nat) (group_by_day days) /\
  forall d, tally d (group_by_day days) = length (filter (fun x => x = d) days).
Proof.
  induction days as [|x days (Hs & Hp & Ht)]; cbn [group_by_day foldr].
  - split; [constructor|]. split; [constructor|]. reflexivity.
  - fold (group_by_day days).
    split; [apply count_on_descending, Hs|].
    split; [apply count_on_positive, Hp|].
    intros d. rewrite tally_count_on, Ht by exact Hs.
    rewrite filter_cons. destruct (Z.eqb_spec x d); case_decide; try lia.
    all: cbn [length]; lia.
Qed.

Lemma length_filter_days (sel : Db.run_row -> bool) d runs :
  length (filter (fun x => x = d)
            (map (fun r => Db.date_trunc_day (Db.created_at r))
                 (List.filter sel runs))) =
  length (filter (fun r => sel r = true /\
                           Db.date_trunc_day (Db.created_at r) = d) runs).
Proof.
  induction runs as [|r runs IH]; [reflexivity|].
  cbn [List.filter]. rewrite (filter_cons _ r).
  destruct (sel r) eqn:Hsel.
  - cbn [map]. rewrite filter_cons.
    repeat case_decide; cbn [length]; try rewrite IH; try reflexivity; tauto.
  - case_decide; [|exact IH]. destruct H; discriminate.
Qed.

Lemma usage_rows_day_counts w orgId projectId (counted : Db.run_row -> bool) :
  (forall r, usage_selects w orgId projectId r = counted r) ->
  day_counts w counted (usage_rows w orgId projectId).
Proof.
  intros Hext. unfold day_counts, usage_rows.
  destruct (group_by_day_spec
              (map (fun r => Db.date_trunc_day (Db.created_at r))
                   (List.filter (usage_selects w orgId projectId) (runs w))))
    as (Hs & Hp & Ht).
  split; [exact Hs|]. intros d n.
  rewrite (elem_of_tally d n _ Hs Hp), Ht, length_filter_days.
  assert (Hlen : length (filter (fun r => usage_selects w orgId projectId r = true /\
                           Db.date_trunc_day (Db.created_at r) = d) (runs w)) =
                 length (filter (fun r => counted r = true /\
                           Db.date_trunc_day (Db.created_at r) = d) (runs w))).
  { f_equal. apply list_filter_iff. intros r. rewrite Hext. reflexivity. }
  rewrite Hlen. split; intros [? ?]; split; congruence.
Qed.

Lemma ltb_bool_decide (x y : Z) : (x <? y) = bool_decide (x < y).
Proof.
  destruct (Z.ltb_spec x y);
    [rewrite bool_decide_eq_true_2|rewrite bool_decide_eq_false_2];
    auto; lia.
Qed.

(** C6 (amended): [GET /usage] answers with the per-day counts of the
    runs created within the last thirty days, from the latest day to the
    earliest, and changes nothing; with a non-empty [projectId] the runs
    counted are those of that project, and with no [projectId] or an
    empty one they are those of the projects of the organisation. *)
Theorem usage_by_day w orgId projectId :
  get_usage orgId projectId w =
  (Ok (UsageRows (usage_rows w orgId projectId)),
   record (SqlSelectUsage orgId projectId) w) /\
  (forall p, projectId = Some p -> p <> "" ->
     day_counts w (fun r => of_project p r && in_window w r)
       (usage_rows w orgId projectId)) /\
  (projectId = None \/ projectId = Some "" ->
     day_counts w (fun r => of_org w orgId r && in_window w r)
       (usage_rows w orgId projectId)).
Proof.
  split; [reflexivity|]. split.
  - intros p -> Hp. apply usage_rows_day_counts. intros r.
    unfold usage_selects, of_project, in_window, recent.
    destruct p as [|c p]; [congruence|]. cbn [Js.truthy Js.truthy_str negb].
    rewrite ltb_bool_decide. f_equal.
    apply bool_decide_ext. split; congruence.
  - intros Hp. apply usage_rows_day_counts. intros r.
    unfold usage_selects, of_org, in_window, recent.
    rewrite ltb_bool_decide.
    assert (Hfalsy : negb (Js.truthy projectId) = true)
      by (destruct Hp as [->| ->]; reflexivity).
    rewrite Hfalsy. f_equal.
    destruct (apps w !! Db.app r) as [a|]; cbn [fmap option_fmap option_map].
    + apply bool_decide_ext. split; congruence.
    + rewrite bool_decide_eq_false_2; [reflexivity|discriminate].
Qed.

(** C6, as stated, fails: [projectId] may be present and empty, and the
    handler then counts the runs of the organisation, none of which is
    of the project with the empty id. *)
Lemma usage_with_empty_project : ~ project_counts_when_present.
Proof.
  intros Hclaim.
  destruct (Hclaim Sample.world0 "org_1" "") as [_ Hrows].
  destruct (Hrows (100 * Db.day) 2%nat) as [Hcount _].
  assert (Hin : (100 * Db.day, 2%nat) ∈ usage_rows Sample.world0 "org_1" (Some "")).
  { vm_compute. left. }
  apply Hcount in Hin as [_ Hn]. vm_compute in Hn. discriminate Hn.
Qed.

Lemma usage_by_day_witness :
  day_counts Sample.world0
    (fun r => of_project "app_2" r && in_window Sample.world0 r)
    (usage_rows Sample.world0 "org_1" (Some "app_2")) /\
  usage_rows Sample.world0 "org_1" (Some "app_2") = [(99 * Db.day, 1%nat)] /\
  usage_rows Sample.world0 "org_1" None = [(100 * Db.day, 2%nat)].
Proof.
  split; [|split; reflexivity].
  apply (proj1 (proj2 (usage_by_day Sample.world0 "org_1" (Some "app_2")))
           "app_2" eq_refl).
  discriminate.
Defined.

End UsageFacts.

(** ** The evaluation creation view *)

Section ViewFacts.
Import NewEvaluation.

Lemma truthy_selected v : Js.truthy v = true <-> selected v.
Proof.
  unfold selected. split.
  - destruct v as [[|c s]|]; try discriminate. intros _.
    eexists. split; [reflexivity|discriminate].
  - intros (id & -> & Hid). destruct id; [congruence|reflexivity].
Qed.

Lemma canStartEvaluation_chosen st :
  canStartEvaluation st = true <->
  selected (datasetId st) /\ models st <> [] /\ selected (checklistId st).
Proof.
  unfold canStartEvaluation.
  rewrite !andb_true_iff, !truthy_selected, Nat.ltb_lt.
  destruct (models st); cbn [length]; intuition (try lia; try congruence).
Qed.

Lemma multi_select_bound value p newModels :
  (length value <= maxValues)%nat ->
  multi_select maxValues value p = Some newModels ->
  (length newModels <= maxValues)%nat.
Proof.
  intros Hlen. destruct p as [v|v]; cbn [multi_select].
  - case_bool_decide; [discriminate|].
    destruct (Nat.ltb_spec (length value) maxValues); [|discriminate].
    intros [= <-]. rewrite length_app. cbn [length]. lia.
  - intros [= <-]. etransitivity; [apply length_filter|exact Hlen].
Qed.

Lemma update_models_bound st a :
  (length (models st) <= maxValues)%nat ->
  (length (models (update st a)) <= maxValues)%nat.
Proof.
  intros Hlen. destruct a; cbn [update]; try exact Hlen.
  - destruct (multi_select maxValues (models st) p) as [newModels|] eqn:Hp;
      [|exact Hlen].
    cbn [setModels models]. eapply multi_select_bound; eassumption.
  - destruct (Js.truthy id); exact Hlen.
  - destruct (start_disabled st); exact Hlen.
  - destruct (interval st); exact Hlen.
Qed.

(** C8 (amended): the Start Evaluation button is enabled exactly when
    a dataset is chosen, at least one model is selected, a checklist is
    chosen and the view is not loading, that is, no evaluation request
    is under way; and, the picker refusing a fourth value, the view
    never holds more than three selected models, whatever the user
    does. *)
Theorem start_enabled_when_chosen :
  (forall st,
      start_disabled st = false <->
      selected (datasetId st) /\ models st <> [] /\ selected (checklistId st) /\
      loading st = false) /\
  (forall actions, (length (models (run actions)) <= 3)%nat).
Proof.
  split.
  - intros st. unfold start_disabled.
    rewrite orb_false_iff, negb_false_iff, canStartEvaluation_chosen. tauto.
  - intros actions. unfold run.
    assert (Hinit : (length (models initial) <= maxValues)%nat)
      by (cbn; unfold maxValues; lia).
    revert Hinit. generalize initial as st.
    induction actions as [|a actions IH]; intros st Hlen; cbn [foldl].
    + exact Hlen.
    + apply IH, update_models_bound, Hlen.
Qed.

(** *** Doubles *)












Lemma ticking te n st :
  interval st = Some te ->
  interval (Nat.iter n (fun s => update s Tick) st) = Some te /\
  loading (Nat.iter n (fun s => update s Tick) st) = loading st /\
  progress (Nat.iter n (fun s => update s Tick) st) =
  Nat.iter n (tick te) (progress st).
Proof.
  intros Hte.
  induction n as [|n (Hi & Hl & Hp)]; [repeat split; exact Hte|].
  change (Nat.iter (S n) (fun s => update s Tick) st)
    with (update (Nat.iter n (fun s => update s Tick) st) Tick).
  change (Nat.iter (S n) (tick te) (progress st))
    with (tick te (Nat.iter n (tick te) (progress st))).
  set (st' := Nat.iter n (fun s => update s Tick) st) in *.
  unfold update. rewrite Hi. cbn [setProgress interval loading progress].
  rewrite Hp. repeat split; assumption.
Qed.

Lemma enabled_estimate st :
  start_disabled st = false ->
  update st ClickStart = startEval st /\ (0 < timeEstimate st)%nat.
Proof.
  intros Hen. cbn [update]. rewrite Hen. split; [reflexivity|].
  unfold start_disabled in Hen. apply orb_false_elim in Hen as [Hcan _].
  apply negb_false_iff in Hcan. unfold canStartEvaluation in Hcan.
  apply andb_prop in Hcan as [Hcan _]. apply andb_prop in Hcan as [_ Hlen].
  apply Nat.ltb_lt in Hlen. unfold timeEstimate. lia.
Qed.


End ViewFacts.

(** C8, as stated, fails: once the evaluation is started, the three
    choices are still made, but the button is loading and takes no
    click until the response has come. *)
Lemma start_disabled_while_loading : ~ NewEvaluation.start_enabled_iff_chosen.
Proof.
  intros Hclaim.
  pose proof (Hclaim [ NewEvaluation.ChangeDataset (Some "ds_1");
                       NewEvaluation.ChangeChecklist (Some "cl_1");
                       NewEvaluation.ClickStart ]) as [_ Hif].
  cbv zeta in Hif.
  assert (Hen : NewEvaluation.start_disabled
                  (NewEvaluation.run
                     [ NewEvaluation.ChangeDataset (Some "ds_1");
                       NewEvaluation.ChangeChecklist (Some "cl_1");
                       NewEvaluation.ClickStart ]) = false).
  { apply Hif. split; [|split].
    - exists "ds_1". split; [reflexivity|discriminate].
    - discriminate.
    - exists "cl_1". split; [reflexivity|discriminate]. }
  vm_compute in Hen. discriminate Hen.
Qed.

Lemma start_enabled_when_chosen_witness :
  NewEvaluation.selected (NewEvaluation.datasetId Sample.ready) /\
  NewEvaluation.models Sample.ready <> [] /\
  NewEvaluation.selected (NewEvaluation.checklistId Sample.ready) /\
  NewEvaluation.loading Sample.ready = false /\
  NewEvaluation.start_disabled Sample.ready = false.
Proof.
  assert (Hd : NewEvaluation.selected (NewEvaluation.datasetId Sample.ready)).
  { exists "ds_1". split; [reflexivity|discriminate]. }
  assert (Hc : NewEvaluation.selected (NewEvaluation.checklistId Sample.ready)).
  { exists "cl_1". split; [reflexivity|discriminate]. }
  assert (Hm : NewEvaluation.models Sample.ready <> []) by discriminate.
  split; [exact Hd|]. split; [exact Hm|]. split; [exact Hc|].
  split; [reflexivity|].
  apply (proj2 (proj1 start_enabled_when_chosen Sample.ready)).
  split; [exact Hd|]. split; [exact Hm|]. split; [exact Hc|reflexivity].
Defined.


(** Two models, an estimate of thirty seconds: after thirty ticks the
    sum of thirty quotients is still below 100 (it is
    99.99999999999997), and the next tick sets the progress to 100,
    where it stays. *)
Example progress_of_two_models :
  let started := NewEvaluation.update Sample.ready NewEvaluation.ClickStart in
  let after n :=
    NewEvaluation.progress
      (Nat.iter n (fun s => NewEvaluation.update s NewEvaluation.Tick) started) in
  (0 <? after 1%nat)%float = true /\
  (after 29%nat <? after 30%nat)%float = true /\
  (after 30%nat <? 100)%float = true /\
  after 30%nat = 0x1.8fffffffffffep+6%float /\
  after 31%nat = 100%float /\
  after 32%nat = 100%float.
Proof. vm_compute. repeat split. Qed.

(** * Further properties of the code *)

(** ** Templates and messages *)

Section PlainTextFacts.
Import Template.

Lemma occurs_tail pat c s : occurs pat (String c s) = false -> occurs pat s = false.
Proof.
  cbn [occurs]. destruct (Js.strip_prefix pat (String c s)); [discriminate|].
  auto.
Qed.

Lemma occurs_head pat r : occurs pat (pat +:+ r) = true.
Proof.
  destruct (pat +:+ r) eqn:E; cbn [occurs]; rewrite <- E, strip_prefix_app;
    reflexivity.
Qed.

Lemma occurs_append pat a r : occurs pat r = true -> occurs pat (a +:+ r) = true.
Proof.
  intros H. induction a as [|c a IH]; [exact H|].
  rewrite append_String. cbn [occurs].
  destruct (Js.strip_prefix pat (String c (a +:+ r))); [reflexivity|exact IH].
Qed.

Lemma match_here_braces s name rest :
  match_here s = Some (name, rest) ->
  occurs "{{" s = true /\ occurs "}}" s = true.
Proof.
  intros [-> _]%match_here_sound. unfold token. split.
  - rewrite append_assoc. apply occurs_head.
  - rewrite append_assoc. apply (occurs_append "}}" "{{").
    rewrite append_assoc. apply occurs_append, occurs_head.
Qed.

(** X1: a template in which [{{] does not occur, or in which [}}] does
    not occur, is returned as it is, whatever the variables. *)
Theorem compileTemplate_plain_text content variables :
  occurs "{{" content = false \/ occurs "}}" content = false ->
  compileTemplate content variables = content.
Proof.
  unfold compileTemplate. induction content as [|c s IH]; intros Hno.
  - reflexivity.
  - rewrite replace_all_cons.
    destruct (match_here (String c s)) as [[name rest]|] eqn:Hm.
    + apply match_here_braces in Hm as [H1 H2].
      destruct Hno; congruence.
    + f_equal. apply IH. destruct Hno as [H|H]; [left|right];
        eapply occurs_tail, H.
Qed.
End PlainTextFacts.

Section MessageFacts.
Import Template.

Lemma replace_first_absent pat by_ s :
  occurs pat s = false -> Js.replace_first pat by_ s = s.
Proof.
  induction s as [|c s IH]; cbn [occurs Js.replace_first].
  - destruct (Js.strip_prefix pat ""); [discriminate|reflexivity].
  - destruct (Js.strip_prefix pat (String c s)); [discriminate|].
    intros H. rewrite (IH H). reflexivity.
Qed.

Lemma replace_first_head pat by_ rest :
  Js.replace_first pat by_ (pat +:+ rest) = by_ +:+ rest.
Proof.
  destruct (pat +:+ rest) eqn:E; cbn [Js.replace_first];
    rewrite <- E, strip_prefix_app; reflexivity.
Qed.

(** X2: [convertInputToOpenAIMessages] throws a [TypeError] when a
    message has no role; otherwise it keeps the number and the order of
    the messages; a role without ["ai"] in it is kept and a role that
    starts with ["ai"] has that prefix replaced by ["assistant"]; the
    content is the item's content when that is a non-empty string and
    its [text] otherwise; [functionCall] and [toolCalls] are passed on,
    and an empty name is dropped. *)
Theorem convertInputToOpenAIMessages_items input :
  (~ Forall (fun m => is_Some (Llm.role m)) input ->
   exists msg,
     Orgs.convertInputToOpenAIMessages input =
     Effects.Throw (Effects.TypeError msg)) /\
  (Forall (fun m => is_Some (Llm.role m)) input ->
   exists output,
     Orgs.convertInputToOpenAIMessages input = Effects.Ok output /\
     length output = length input /\
     forall i m,
       input !! i = Some m ->
       exists role m',
         Llm.role m = Some role /\
         output !! i = Some m' /\
         (occurs "ai" role = false -> Llm.m_role m' = role) /\
         (forall rest, role = "ai" +:+ rest ->
                       Llm.m_role m' = "assistant" +:+ rest) /\
         (Js.truthy (Llm.content m) = true ->
          Llm.m_content m' = Llm.content m) /\
         (Js.truthy (Llm.content m) = false ->
          Llm.m_content m' = Llm.text m) /\
         Llm.m_function_call m' = Llm.functionCall m /\
         Llm.m_tool_calls m' = Llm.toolCalls m /\
         (Js.truthy (Llm.name m) = true -> Llm.m_name m' = Llm.name m) /\
         (Js.truthy (Llm.name m) = false -> Llm.m_name m' = None)).
Proof.
  destruct (convert_cases input)
    as [[Hall (output & Hconv & H2)]|[Hno (msg & Hconv)]].
  2:{ split; [intros _; exists msg; exact Hconv|].
      intros Hall. destruct (Hno Hall). }
  split; [intros Hno; destruct (Hno Hall)|]. intros _.
  exists output. split; [exact Hconv|].
  split; [symmetry; eapply Forall2_length, H2|].
  intros i m Hi.
  destruct (Forall2_lookup_l _ _ _ _ _ H2 Hi) as (m' & Hm' & Hm).
  unfold Orgs.convert_message in Hm.
  destruct (Llm.role m) as [role|]; [|discriminate]. injection Hm as <-.
  exists role. eexists. split; [reflexivity|]. split; [exact Hm'|].
  cbn [Llm.m_role Llm.m_content Llm.m_function_call Llm.m_tool_calls Llm.m_name].
  unfold Js.or_else. repeat split.
  - apply replace_first_absent.
  - intros rest ->. apply replace_first_head.
  - intros ->. reflexivity.
  - intros ->. reflexivity.
  - intros ->. reflexivity.
  - intros ->. reflexivity.
Qed.

End MessageFacts.

(** ** Reading and renaming *)

Section ReadFacts.
Import Effects Orgs Observe.
Context `{client : SqlClient}.

Lemma get_org_result orgId w :
  get_org orgId w =
  (Ok (OrgRow (pair orgId <$> orgs w !! orgId)), record (SqlSelectOrg orgId) w).
Proof.
  unfold get_org, select_org. run_M. cbn [orgs record].
  destruct (orgs w !! orgId); reflexivity.
Qed.

Lemma get_handler_reads r w :
  is_get r = true ->
  exists b e, handle r w = (Ok b, record e w).
Proof.
  destruct r; try discriminate; intros _; cbn [handle].
  - rewrite get_org_result. eexists _, _. reflexivity.
  - eexists _, _. reflexivity.
  - eexists _, _. reflexivity.
Qed.

(** X3: [GET /] answers with the row of the organisation, and with an
    undefined body when there is none, without an error; and a sequence
    of GET requests, whatever their order and arguments, never throws
    and leaves the tables and Stripe as they were, with one statement
    in the trace for each request. *)
Theorem get_requests_read_only rs w orgId :
  (get_org orgId w).1 = Ok (OrgRow (pair orgId <$> orgs w !! orgId)) /\
  (Forall (fun r => is_get r = true) rs ->
   let w' := serve rs w in
   orgs w' = orgs w /\ apps w' = apps w /\ runs w' = runs w /\
   stripe w' = stripe w /\
   length (trace w') = (length (trace w) + length rs)%nat).
Proof.
  split; [rewrite get_org_result; reflexivity|].
  unfold serve. revert w. induction rs as [|r rs IH]; intros w Hget;
    cbn [foldl length].
  - repeat split. lia.
  - apply Forall_cons in Hget as [Hr Hrs].
    destruct (get_handler_reads r w Hr) as (b & e & ->). cbn [snd].
    destruct (IH (record e w) Hrs) as (-> & -> & -> & -> & ->).
    cbn [orgs apps runs stripe trace record]. rewrite length_app.
    repeat split. cbn [length]. lia.
Qed.

(** X4: after [PATCH /] with a name, [GET /] of the same organisation
    answers with a row that has this name and the other columns as
    before. *)
Theorem patch_then_get orgId name w r :
  orgs w !! orgId = Some r ->
  let w' := (patch_org orgId (Some name) w).2 in
  (patch_org orgId (Some name) w).1 = Ok EmptyObject /\
  exists r',
    (get_org orgId w').1 = Ok (OrgRow (Some (orgId, r'))) /\
    Db.name r' = name /\
    Db.plan r' = Db.plan r /\
    Db.play_allowance r' = Db.play_allowance r /\
    Db.stripe_customer r' = Db.stripe_customer r /\
    Db.stripe_subscription r' = Db.stripe_subscription r /\
    Db.passed_on r' = Db.passed_on r.
Proof.
  intros Hr w'. split; [reflexivity|].
  exists (Db.set_name name r). split; [|repeat split].
  rewrite get_org_result. cbn [fst].
  subst w'. unfold patch_org, update_org_name. run_M.
  cbn [snd orgs with_orgs record].
  rewrite lookup_alter_eq, Hr. reflexivity.
Qed.

(** X5: [PATCH /] touches the row of its organisation only, whatever
    the body: the rows of the other organisations, the other tables and
    Stripe are as they were, and for an id without a row no row
    changes.  With a name in the body it sends one update, which sets
    the name of the row when there is one, and answers [{}], also for
    an id without a row. *)
Theorem patch_org_frame orgId name w :
  let out := patch_org orgId name w in
  (forall id, id <> orgId -> orgs out.2 !! id = orgs w !! id) /\
  (orgs w !! orgId = None -> orgs out.2 = orgs w) /\
  apps out.2 = apps w /\ runs out.2 = runs w /\ stripe out.2 = stripe w /\
  (forall n, name = Some n ->
             out.1 = Ok EmptyObject /\
             Db.name <$> orgs out.2 !! orgId = (fun _ => n) <$> orgs w !! orgId /\
             trace out.2 = trace w ++ [SqlUpdateOrgName orgId n]).
Proof.
  cbv zeta. unfold patch_org, update_org_name.
  destruct name as [n|]; run_M;
    cbn [fst snd orgs apps runs stripe trace with_orgs record];
    (split; [|split; [|split; [|split; [|split]]]]);
    try reflexivity; try discriminate.
  - intros id Hid. apply lookup_alter_ne. congruence.
  - intros Hnone. apply map_eq. intros i. rewrite lookup_alter.
    case_decide; subst; rewrite ?Hnone; reflexivity.
  - intros ? [= <-]. split; [reflexivity|]. split; [|reflexivity].
    rewrite lookup_alter_eq. destruct (orgs w !! orgId); reflexivity.
Qed.

Lemma activated_iff rs id :
  activated rs id = true <-> exists r, r ∈ rs /\ Db.app r = id.
Proof.
  unfold activated. rewrite existsb_exists. split.
  - intros (r & Hin & Hr). exists r. split; [apply list_elem_of_In, Hin|].
    apply bool_decide_eq_true in Hr. exact Hr.
  - intros (r & Hin & Hr). exists r. split; [apply list_elem_of_In, Hin|].
    apply bool_decide_eq_true. exact Hr.
Qed.

(** X6: [GET /projects] lists exactly the projects whose [org_id] is
    the organisation, each once, and flags a project as activated
    exactly when some run has it as its [app]. *)
Theorem projects_of_org orgId w :
  exists rows,
    (get_projects orgId w).1 = Ok (ProjectRows rows) /\
    NoDup rows /\
    (forall id a act,
        (id, a, act) ∈ rows <->
        apps w !! id = Some a /\ Db.org_id a = orgId /\
        act = activated (runs w) id) /\
    (forall id a,
        (id, a, true) ∈ rows ->
        exists r, r ∈ runs w /\ Db.app r = id).
Proof.
  eexists. split; [reflexivity|].
  cbn [orgs apps runs record].
  assert (Hmem : forall id a act,
    (id, a, act) ∈
      ((fun '(id, a) => (id, a, activated (runs w) id)) <$>
       filter (fun '(_, a) => Db.org_id a = orgId) (map_to_list (apps w))) <->
    apps w !! id = Some a /\ Db.org_id a = orgId /\
    act = activated (runs w) id).
  { intros id a act. rewrite list_elem_of_fmap. split.
    - intros ([id' a'] & [= -> -> ->] & Hin).
      apply list_elem_of_filter in Hin as [Horg Hin].
      apply elem_of_map_to_list in Hin. auto.
    - intros (Ha & Horg & ->). exists (id, a). split; [reflexivity|].
      apply list_elem_of_filter. split; [exact Horg|].
      apply elem_of_map_to_list, Ha. }
  split; [|split; [exact Hmem|]].
  - apply NoDup_fmap_2.
    + intros [i1 a1] [i2 a2] [= -> -> _]. reflexivity.
    + apply NoDup_filter, NoDup_map_to_list.
  - intros id a Hin. apply Hmem in Hin as (_ & _ & Hact).
    apply activated_iff. symmetry. exact Hact.
Qed.

End ReadFacts.

(** ** Usage totals *)

Section UsageTotals.
Import Effects Orgs.

Lemma count_on_total d rows :
  sum_list (snd <$> count_on d rows) = S (sum_list (snd <$> rows)).
Proof.
  induction rows as [|[d' n] rows IH]; cbn [count_on]; [reflexivity|].
  destruct (d' <? d); [reflexivity|]. destruct (d' =? d); [reflexivity|].
  cbn [fmap list_fmap sum_list snd] in *. rewrite IH. lia.
Qed.

Lemma group_by_day_total days :
  sum_list (snd <$> group_by_day days) = length days.
Proof.
  induction days as [|d days IH]; [reflexivity|].
  cbn [group_by_day foldr]. fold (group_by_day days).
  rewrite count_on_total, IH. reflexivity.
Qed.

Lemma count_on_days d rows x :
  x ∈ count_on d rows -> x.1 = d \/ exists y, y ∈ rows /\ y.1 = x.1.
Proof.
  induction rows as [|[d' n] rows IH]; cbn [count_on].
  - intros ->%list_elem_of_singleton. left. reflexivity.
  - destruct (d' <? d); [|destruct (Z.eqb_spec d' d)].
    + intros [->|Hin]%elem_of_cons; [left; reflexivity|].
      right. exists x. split; [exact Hin|reflexivity].
    + intros [->|Hin]%elem_of_cons; [left; assumption|].
      right. exists x. split; [right; exact Hin|reflexivity].
    + intros [->|Hin]%elem_of_cons.
      * right. exists (d', n). split; [left|reflexivity].
      * destruct (IH Hin) as [?|(y & Hy & Hxy)]; [left; assumption|].
        right. exists y. split; [right; exact Hy|exact Hxy].
Qed.

Lemma group_by_day_days days x :
  x ∈ group_by_day days -> x.1 ∈ days.
Proof.
  revert x. induction days as [|d days IH]; intros x; cbn [group_by_day foldr].
  - intros Hin. inversion Hin.
  - fold (group_by_day days). intros [->|(y & Hy & <-)]%count_on_days.
    + left.
    + right. apply IH, Hy.
Qed.

Lemma date_trunc_day_bounds t :
  Db.date_trunc_day t <= t < Db.date_trunc_day t + Db.day /\
  Db.date_trunc_day t mod Db.day = 0.
Proof.
  unfold Db.date_trunc_day, Db.day.
  pose proof (Z.div_mod t 86400 ltac:(lia)).
  pose proof (Z.mod_pos_bound t 86400 ltac:(lia)).
  split; [lia|]. apply Z.mod_mul. lia.
Qed.

(** X7: the counts of [GET /usage] add up to the number of runs the
    query selects; every day answered is the start of a day and lies
    less than thirty-one days back. *)
Theorem usage_totals w orgId projectId :
  sum_list (snd <$> usage_rows w orgId projectId) =
  length (List.filter (usage_selects w orgId projectId) (runs w)) /\
  forall d n,
    (d, n) ∈ usage_rows w orgId projectId ->
    d mod Db.day = 0 /\ now w - 31 * Db.day < d.
Proof.
  unfold usage_rows. split.
  - rewrite group_by_day_total, length_map. reflexivity.
  - intros d n Hin. apply group_by_day_days in Hin. cbn [fst] in Hin.
    apply list_elem_of_In, in_map_iff in Hin as (r & <- & Hr).
    apply filter_In in Hr as [_ Hsel].
    unfold usage_selects in Hsel. apply andb_prop in Hsel as [_ Hrecent].
    unfold recent in Hrecent. apply Z.ltb_lt in Hrecent.
    destruct (date_trunc_day_bounds (Db.created_at r)) as [Hb Hm].
    split; [exact Hm|]. unfold Db.thirty_days in Hrecent. lia.
Qed.

(** X8: with a non-empty [projectId] the answer of [GET /usage] is the
    same under every organisation id: the organisation of the route is
    not part of the query. *)
Theorem usage_of_project_ignores_org w orgId orgId' p :
  p <> "" ->
  (get_usage orgId (Some p) w).1 = (get_usage orgId' (Some p) w).1.
Proof.
  intros Hp. unfold get_usage, select_usage. run_M. cbn [fst].
  do 2 f_equal. unfold usage_rows. cbn [runs record]. do 2 f_equal.
  apply filter_ext. intros r. unfold usage_selects. cbn [apps now record].
  destruct p; [congruence|]. reflexivity.
Qed.
End UsageTotals.

(** ** What the playground spends and sends *)

Section PlaygroundEffects.
Import Effects Orgs Observe.
Context `{client : SqlClient}.

(** X9: a request of an organisation with a positive allowance, when
    nothing throws while it is prepared, makes one provider call and is
    answered with the stream of the response, or with the error the
    call rejected with; either way the allowance of that organisation
    goes down by one and its other columns stay; the other rows, the
    other tables and Stripe stay; the trace gains the select, the
    decrement and the call, in this order. *)
Theorem playground_serves orgId b w r :
  column_key "play_allowance" = "playAllowance" ->
  orgs w !! orgId = Some r ->
  0 < Db.play_allowance r ->
  prepared b w ->
  let out := post_playground orgId b w in
  let method := select_method (env w) (model_of (Request.extra b)) in
  exists messages,
    convertInputToOpenAIMessages (compiled b) = Ok messages /\
    let request := request_of b messages in
    (completions w method request = None ->
     out.1 = Ok (StreamingTextResponse method request)) /\
    (forall e, completions w method request = Some e -> out.1 = Throw e) /\
    (exists r',
        orgs out.2 !! orgId = Some r' /\
        Db.play_allowance r' = Db.play_allowance r - 1 /\
        Db.plan r' = Db.plan r /\ Db.name r' = Db.name r /\
        Db.stripe_customer r' = Db.stripe_customer r /\
        Db.stripe_subscription r' = Db.stripe_subscription r) /\
    (forall id, id <> orgId -> orgs out.2 !! id = orgs w !! id) /\
    apps out.2 = apps w /\ runs out.2 = runs w /\ stripe out.2 = stripe w /\
    trace out.2 =
    trace w ++ [SqlSelectPlayAllowance orgId;
                SqlDecrementPlayAllowance orgId;
                LlmCall method request].
Proof.
  intros Hkey Hr Hpos Hok out method. subst out.
  assert (Hguard := guard_of_row orgId w r Hkey Hr).
  destruct (Z.leb_spec (Db.play_allowance r) 0); [lia|].
  pose proof (post_playground_cases orgId b w) as Hc. cbv zeta in Hc.
  rewrite Hguard in Hc. fold method in Hc.
  destruct Hc as [(Hno & _)|(_ & messages & Hconv & ->)]; [destruct (Hno Hok)|].
  exists messages. split; [exact Hconv|].
  cbv zeta. cbn [fst snd orgs apps runs stripe trace with_orgs record].
  unfold answer.
  split; [intros ->; reflexivity|]. split; [intros e ->; reflexivity|].
  split; [|split; [|repeat split]].
  - exists (Db.decrement_allowance r). rewrite lookup_alter_eq, Hr.
    repeat split.
  - intros id Hid. apply lookup_alter_ne. congruence.
  - rewrite <- !app_assoc. reflexivity.
Qed.

(** X10: when the template loop throws (test values are given and a
    message has no content), the allowance is already spent: the
    handler throws a [TypeError], the allowance is one less, and no
    provider was called. *)
Theorem playground_type_error_spends orgId b w r :
  column_key "play_allowance" = "playAllowance" ->
  orgs w !! orgId = Some r ->
  0 < Db.play_allowance r ->
  ~ templates_compile b ->
  let out := post_playground orgId b w in
  (exists msg, out.1 = Throw (TypeError msg)) /\
  Db.play_allowance <$> orgs out.2 !! orgId = Some (Db.play_allowance r - 1) /\
  trace out.2 =
  trace w ++ [SqlSelectPlayAllowance orgId; SqlDecrementPlayAllowance orgId].
Proof.
  intros Hkey Hr Hpos Hno out. subst out.
  assert (Hguard := guard_of_row orgId w r Hkey Hr).
  destruct (Z.leb_spec (Db.play_allowance r) 0); [lia|].
  assert (Hthrow : exists msg,
    post_playground orgId b w =
    (Throw (TypeError msg),
     with_orgs (alter Db.decrement_allowance orgId)
       (record (SqlDecrementPlayAllowance orgId)
          (record (SqlSelectPlayAllowance orgId) w)))).
  { destruct (post_playground_past_guard orgId b w Hguard)
      as [[Hc E]|[(_ & _ & msg & E)|[(_ & Ht & _)|
          [(_ & Ht & _)|((_ & Ht & _) & _)]]]];
      try (destruct (Hno Ht)).
    - eexists. exact E.
    - exists msg. exact E. }
  destruct Hthrow as [msg ->].
  cbn [fst snd orgs trace with_orgs record].
  split; [eexists; reflexivity|]. split.
  - rewrite lookup_alter_eq, Hr. reflexivity.
  - rewrite <- !app_assoc. reflexivity.
Qed.



Lemma provider_calls_snoc t e :
  provider_calls (t ++ [e]) =
  (provider_calls t + if is_provider_call e then 1 else 0)%nat.
Proof.
  unfold provider_calls. rewrite List.filter_app, length_app. cbn [List.filter].
  destruct (is_provider_call e); reflexivity.
Qed.

(** One request for an organisation with a row. *)
Lemma post_playground_step orgId b w r :
  column_key "play_allowance" = "playAllowance" ->
  orgs w !! orgId = Some r ->
  let w' := (post_playground orgId b w).2 in
  let spent := if Db.play_allowance r <=? 0 then 0 else 1 in
  (exists r', orgs w' !! orgId = Some r' /\
              Db.play_allowance r' = Db.play_allowance r - spent) /\
  env w' = env w /\ openai_constructor w' = openai_constructor w /\
  (prepared b w ->
   Z.of_nat (provider_calls (trace w')) =
   Z.of_nat (provider_calls (trace w)) + spent) /\
  Z.of_nat (provider_calls (trace w)) <= Z.of_nat (provider_calls (trace w'))
  <= Z.of_nat (provider_calls (trace w)) + spent.
Proof.
  intros Hkey Hr w' spent. subst w' spent.
  assert (Hguard := guard_of_row orgId w r Hkey Hr).
  pose proof (post_playground_cases orgId b w) as Hc. cbv zeta in Hc.
  rewrite Hguard in Hc.
  destruct (Z.leb_spec (Db.play_allowance r) 0).
  - rewrite Hc. cbn [snd orgs env openai_constructor trace record].
    split; [exists r; split; [exact Hr|lia]|].
    split; [reflexivity|]. split; [reflexivity|].
    rewrite provider_calls_snoc. cbn. split; [intros _|]; lia.
  - destruct Hc as [(Hno & e & -> & _)|(Hok & messages & _ & ->)];
      cbn [snd orgs env openai_constructor trace with_orgs record];
      (split; [exists (Db.decrement_allowance r);
               rewrite lookup_alter_eq, Hr; split; reflexivity|]);
      (split; [reflexivity|]); (split; [reflexivity|]);
      rewrite !provider_calls_snoc; cbn; (split; [intros H'|]); try lia;
      contradiction.
Qed.

Lemma prepared_same b w w' :
  env w' = env w -> openai_constructor w' = openai_constructor w ->
  prepared b w' <-> prepared b w.
Proof.
  intros He Hc. unfold prepared, client_constructed. rewrite He, Hc.
  reflexivity.
Qed.

(** X12: of a sequence of playground requests of one organisation that
    starts with an allowance of [n >= 0], served one at a time, each
    request spends one allowance until none is left, whatever the
    bodies: after [k] requests the allowance is [max 0 (n - k)]; at most
    [min k n] provider calls were made, and exactly that many when
    nothing throws while the requests are prepared. *)
Theorem playground_quota orgId bs w r :
  column_key "play_allowance" = "playAllowance" ->
  orgs w !! orgId = Some r ->
  0 <= Db.play_allowance r ->
  let w' := serve (PostPlayground orgId <$> bs) w in
  let calls := Z.of_nat (provider_calls (trace w'))
               - Z.of_nat (provider_calls (trace w)) in
  Db.play_allowance <$> orgs w' !! orgId =
  Some (Z.max 0 (Db.play_allowance r - Z.of_nat (length bs))) /\
  0 <= calls <= Z.min (Z.of_nat (length bs)) (Db.play_allowance r) /\
  (Forall (fun b => prepared b w) bs ->
   calls = Z.min (Z.of_nat (length bs)) (Db.play_allowance r)).
Proof.
  intros Hkey. revert w r. unfold serve.
  induction bs as [|b bs IH]; intros w r Hr Hnn; cbn [fmap list_fmap foldl length].
  - rewrite Hr. cbn. split; [f_equal; lia|]. split; [lia|]. intros _. lia.
  - cbn [handle].
    destruct (post_playground_step orgId b w r Hkey Hr)
      as ((r' & Hr' & Hn) & Henv & Hnew & Hcalls & Hsome).
    assert (Hnn' : 0 <= Db.play_allowance r')
      by (rewrite Hn; destruct (Z.leb_spec (Db.play_allowance r) 0); lia).
    destruct (IH _ r' Hr' Hnn') as (Hallow & Hbound & Hcount).
    cbv zeta in *. split; [|split].
    + rewrite Hallow, Hn. f_equal.
      destruct (Z.leb_spec (Db.play_allowance r) 0); lia.
    + rewrite Hn in Hbound.
      destruct (Z.leb_spec (Db.play_allowance r) 0); lia.
    + intros [Hb Hbs]%Forall_cons.
      assert (Hbs' : Forall (fun b0 => prepared b0 (post_playground orgId b w).2) bs).
      { eapply Forall_impl; [exact Hbs|]. intros b0 H0.
        apply (prepared_same b0 w _ Henv Hnew), H0. }
      specialize (Hcount Hbs'). rewrite (Hcalls Hb), Hn in Hcount.
      destruct (Z.leb_spec (Db.play_allowance r) 0); lia.
Qed.

End PlaygroundEffects.

(** ** What an upgrade touches *)

Section UpgradeEffects.
Import Effects Orgs Observe.
Context `{client : SqlClient}.

Lemma post_upgrade_tables orgId b w :
  apps (post_upgrade orgId b w).2 = apps w /\
  runs (post_upgrade orgId b w).2 = runs w.
Proof.
  pose proof (post_upgrade_cases orgId b w) as Hc. cbv zeta in Hc.
  destruct (Stripe.prices_list _ (stripe w)); [rewrite Hc; split; reflexivity|].
  destruct (orgs w !! orgId); [|rewrite Hc; split; reflexivity].
  destruct (negb _); [destruct Hc as (? & _ & _ & ->); split; reflexivity|].
  destruct (_ ≫= _) as [sub|]; [|rewrite Hc; split; reflexivity].
  destruct (Stripe.items sub).
  - destruct Hc as [? ->]. split; reflexivity.
  - destruct Hc as (? & ? & _ & _ & ->). split; reflexivity.
Qed.

(** X13: [POST /upgrade], whatever it answers, changes no row of
    another organisation and no other table; of the row of the
    organisation it changes at most [plan], to the plan of the request;
    it creates no row. *)
Theorem upgrade_frame orgId b w :
  let w' := (post_upgrade orgId b w).2 in
  (forall id, id <> orgId -> orgs w' !! id = orgs w !! id) /\
  (forall r, orgs w !! orgId = Some r ->
     exists r', orgs w' !! orgId = Some r' /\
       Db.play_allowance r' = Db.play_allowance r /\
       Db.name r' = Db.name r /\
       Db.stripe_customer r' = Db.stripe_customer r /\
       Db.stripe_subscription r' = Db.stripe_subscription r /\
       (Db.plan r' = Db.plan r \/ Db.plan r' = Request.plan b)) /\
  (orgs w !! orgId = None -> orgs w' !! orgId = None) /\
  apps w' = apps w /\ runs w' = runs w.
Proof.
  intros w'. subst w'.
  destruct (post_upgrade_tables orgId b w) as [Happs Hruns].
  destruct (post_upgrade_orgs orgId b w) as [Horgs|Horgs]; rewrite Horgs.
  - split; [reflexivity|]. split; [|split; [auto|split; assumption]].
    intros r Hr. exists r. repeat split; auto.
  - split; [intros id Hid; apply lookup_alter_ne; congruence|].
    split; [|split; [|split; assumption]].
    + intros r Hr. exists (Db.set_plan (Request.plan b) r).
      rewrite lookup_alter_eq, Hr. repeat split. right. reflexivity.
    + intros Hnone. rewrite lookup_alter_eq, Hnone. reflexivity.
Qed.

Lemma camel_billing_row orgId r :
  camel_keys ->
  prop (billing_row orgId r) "stripe_subscription" = None /\
  prop (billing_row orgId r) "stripeCustomer" = Db.stripe_customer r.
Proof.
  intros (Hid & Hplan & Hcus & Hsub). unfold prop, billing_row.
  rewrite Hid, Hplan, Hcus, Hsub. split.
  - rewrite !lookup_insert_ne, lookup_empty by discriminate. reflexivity.
  - rewrite lookup_insert_ne, lookup_insert_eq by discriminate. reflexivity.
Qed.

(** X14: with a client that camel-cases the selected columns, a request
    for an organisation with a row and a plan with a price, with or
    without a subscription, creates one checkout session: for the first
    price listed, quantity one, the organisation as reference, the
    stored customer if it is a non-empty string, the plan and period as
    metadata, and the two return URLs under [origin]; the answer is the
    URL of the session; rows and subscriptions stay. *)
Theorem upgrade_checkout orgId b w r price prices :
  camel_keys ->
  Stripe.prices_list (Request.plan b +:+ "_" +:+ Request.period b) (stripe w)
  = price :: prices ->
  orgs w !! orgId = Some r ->
  let out := post_upgrade orgId b w in
  out.1 = Ok (OkWithUrl (Stripe.session_url (stripe w)
                           (length (Stripe.sessions (stripe w))))) /\
  Stripe.sessions (stripe out.2) =
  Stripe.sessions (stripe w) ++ [checkout_of orgId b r price] /\
  Stripe.subscriptions (stripe out.2) = Stripe.subscriptions (stripe w) /\
  orgs out.2 = orgs w /\
  trace out.2 =
  trace w ++ [StripePricesList (Request.plan b +:+ "_" +:+ Request.period b);
              SqlSelectOrgBilling orgId;
              StripeCheckoutSessionsCreate (checkout_of orgId b r price)].
Proof.
  intros Hcamel Hprice Hr out. subst out.
  destruct (camel_billing_row orgId r Hcamel) as [Hsub Hcus].
  unfold post_upgrade, stripe_prices_list, select_org_billing,
    stripe_checkout_sessions_create.
  run_M. cbn [stripe record]. rewrite Hprice. cbn [orgs record]. rewrite Hr.
  cbn [fmap option_fmap option_map option_list option_rect].
  rewrite Hsub, Hcus. cbn [Js.truthy negb].
  cbn [fst snd stripe orgs trace record with_stripe Stripe.sessions
       Stripe.subscriptions Stripe.session_url Stripe.add_session].
  repeat split. rewrite <- !app_assoc. reflexivity.
Qed.

End UpgradeEffects.

(** ** The progress bar and the modal *)

Section ProgressFacts.
Import NewEvaluation Observe.

Lemma iter_stable {A} (f : A -> A) (x : A) N n :
  Nat.iter (S N) f x = Nat.iter N f x ->
  (N <= n)%nat -> Nat.iter n f x = Nat.iter N f x.
Proof.
  intros Hfix. induction 1 as [|n Hle IH]; [reflexivity|].
  change (Nat.iter (S n) f x) with (f (Nat.iter n f x)).
  rewrite IH. exact Hfix.
Qed.

(** With one, two or three models the progress after any number of
    ticks is a number from 0 to 100 that the next tick does not lower,
    and it is above 0 after the first tick: the progress reaches 100
    within [estimate + 1] ticks and stays there, and the values up to
    there are computed. *)
Lemma ticks_computed te n :
  In te [15; 30; 45]%nat ->
  let p := Nat.iter n (tick te) 0%float in
  (0 <=? p)%float = true /\ (p <=? 100)%float = true /\
  (p <=? p)%float = true /\ (p <=? tick te p)%float = true /\
  (n <> 0%nat -> (0 <? p)%float = true).
Proof.
  intros Hte.
  assert (Hfix : Nat.iter (S (S te)) (tick te) 0%float =
                 Nat.iter (S te) (tick te) 0%float).
  { destruct Hte as [<-|[<-|[<-|[]]]]; vm_compute; reflexivity. }
  assert (Hall :
    forallb (fun k =>
      let p := Nat.iter k (tick te) 0%float in
      (0 <=? p)%float && (p <=? 100)%float && (p <=? p)%float
      && (p <=? tick te p)%float && (Nat.eqb k 0 || (0 <? p)%float))
      (seq 0 (S (S te))) = true).
  { destruct Hte as [<-|[<-|[<-|[]]]]; vm_compute; reflexivity. }
  assert (Hk : exists k, (k < S (S te))%nat /\ (n <> 0 -> k <> 0)%nat /\
                         Nat.iter n (tick te) 0%float =
                         Nat.iter k (tick te) 0%float).
  { destruct (Nat.le_gt_cases (S te) n) as [Hle|Hlt].
    - exists (S te). split; [lia|]. split; [lia|].
      apply iter_stable; assumption.
    - exists n. split; [lia|]. split; [tauto|reflexivity]. }
  destruct Hk as (k & Hlt & Hnz & Heq). cbv zeta. rewrite Heq.
  pose proof (proj1 (forallb_forall _ _) Hall k) as Hp.
  cbv zeta in Hp.
  rewrite !andb_true_iff, orb_true_iff, Nat.eqb_eq in Hp.
  destruct Hp as ((((H0 & H100) & Hrefl) & Hgrow) & Hpos).
  { apply in_seq. lia. }
  repeat split; try assumption.
  intros Hn. destruct Hpos as [Hz|Hpos]; [|exact Hpos].
  destruct (Hnz Hn Hz).
Qed.

(** What holds of every state of the view: at most three models, and
    a progress that is the result of ticks of one of the three
    estimates, which is the estimate of the interval when one runs. *)
Lemma view_invariant actions :
  let st := run actions in
  (length (models st) <= maxValues)%nat /\
  exists te n,
    In te [15; 30; 45]%nat /\
    progress st = Nat.iter n (tick te) 0%float /\
    (interval st = None \/ interval st = Some te).
Proof.
  unfold run.
  assert (Hinit :
    (length (models initial) <= maxValues)%nat /\
    exists te n,
      In te [15; 30; 45]%nat /\
      progress initial = Nat.iter n (tick te) 0%float /\
      (interval initial = None \/ interval initial = Some te)).
  { split; [cbn; unfold maxValues; lia|].
    exists 15%nat, 0%nat. split; [left; reflexivity|].
    split; [reflexivity|left; reflexivity]. }
  revert Hinit. generalize initial as st.
  induction actions as [|a actions IH]; intros st Hinv; cbn [foldl];
    [exact Hinv|].
  apply IH. destruct Hinv as (Hlen & te & n & Hte & Hp & Hi).
  split; [apply update_models_bound, Hlen|].
  destruct a; cbn [update];
    try (exists te, n; repeat split; assumption).
  - destruct (multi_select maxValues (models st) p);
      exists te, n; repeat split; assumption.
  - destruct (Js.truthy id); exists te, n; repeat split; assumption.
  - destruct (start_disabled st) eqn:Hen;
      [exists te, n; repeat split; assumption|].
    destruct (enabled_estimate st Hen) as [_ Hpos].
    exists (timeEstimate st), 0%nat. split; [|split; [reflexivity|right; reflexivity]].
    unfold timeEstimate, maxValues in *.
    destruct (length (models st)) as [|[|[|[|k]]]]; cbn in *; try lia; tauto.
  - destruct (interval st) as [te'|] eqn:Hi'.
    + destruct Hi as [Hi|Hi]; [discriminate|]. injection Hi as ->.
      exists te, (S n). split; [exact Hte|].
      cbn [setProgress progress interval]. rewrite Hp.
      split; [reflexivity|right; first [reflexivity|exact Hi']].
    + exists te, n. split; [exact Hte|].
      split; [exact Hp|left; first [reflexivity|exact Hi']].
  - exists te, n. split; [exact Hte|]. split; [exact Hp|left; reflexivity].
Qed.

(** X15: whatever the user and the timer do, the progress of the view
    stays between 0 and 100, and a tick never lowers it. *)
Theorem progress_within_bounds actions :
  let p := progress (run actions) in
  (0 <=? p)%float = true /\ (p <=? 100)%float = true /\
  (p <=? progress (update (run actions) Tick))%float = true.
Proof.
  destruct (view_invariant actions) as (_ & te & n & Hte & Hp & Hi).
  cbv zeta in *.
  destruct (ticks_computed te n Hte) as (H0 & H100 & Hrefl & Hgrow & _).
  cbv zeta in *. rewrite <- Hp in H0, H100, Hrefl, Hgrow.
  split; [exact H0|]. split; [exact H100|]. cbn [update].
  destruct Hi as [-> | ->]; [exact Hrefl|].
  cbn [setProgress progress]. exact Hgrow.
Qed.

(** X16: after a start of the view, from any state in which the button
    takes the click, the progress bar is not shown until the first tick
    (the progress is zero), it is shown after every later tick, and it
    is hidden again when the response has come. *)
Theorem progress_hidden_until_first_tick actions n :
  start_disabled (run actions) = false ->
  let started := update (run actions) ClickStart in
  progress_shown started = false /\
  progress_shown (Nat.iter (S n) (fun s => update s Tick) started) = true /\
  progress_shown (update (Nat.iter n (fun s => update s Tick) started) Response)
  = false.
Proof.
  intros Hen started.
  destruct (view_invariant (actions ++ [ClickStart]))
    as (_ & te & k & Hte & _ & Hi).
  cbv zeta in Hi. unfold run in Hi. rewrite foldl_app in Hi.
  cbn [foldl] in Hi. fold (run actions) in Hi. fold started in Hi.
  destruct (enabled_estimate _ Hen) as [Hclick _]. fold started in Hclick.
  assert (Hint : interval started = Some te).
  { destruct Hi as [Hi|Hi]; [|exact Hi]. rewrite Hclick in Hi. discriminate. }
  split; [rewrite Hclick; reflexivity|]. split; [|reflexivity].
  destruct (ticking te (S n) started Hint) as (_ & Hl & Hp).
  unfold progress_shown. rewrite Hl, Hp, Hclick.
  cbn [startEval loading progress andb].
  apply (ticks_computed te (S n) Hte). discriminate.
Qed.

(** X17: when the response has come the view stops loading and the
    interval is cleared: later ticks leave the progress where it was. *)
Theorem response_stops_timer st n :
  let done := update st Response in
  loading done = false /\
  interval done = None /\
  progress (Nat.iter n (fun s => update s Tick) done) = progress st.
Proof.
  cbv zeta. split; [reflexivity|]. split; [reflexivity|].
  assert (H : Nat.iter n (fun s => update s Tick) (update st Response)
              = update st Response).
  { induction n as [|n IH]; [reflexivity|].
    change (Nat.iter (S n) (fun s => update s Tick) (update st Response))
      with (update (Nat.iter n (fun s => update s Tick) (update st Response)) Tick).
    rewrite IH. reflexivity. }
  rewrite H. reflexivity.
Qed.


End ProgressFacts.

(** ** Instances *)

Lemma compileTemplate_plain_text_witness :
  Template.occurs "{{" "a }} b" = false /\
  Template.compileTemplate "a }} b" {[ "b" := "c" ]} = "a }} b".
Proof.
  split; [reflexivity|].
  apply (compileTemplate_plain_text "a }} b" {[ "b" := "c" ]}).
  left. reflexivity.
Defined.

Lemma convertInputToOpenAIMessages_items_witness :
  Forall (fun m => is_Some (Llm.role m)) [Sample.hello] /\
  exists output m,
    Orgs.convertInputToOpenAIMessages [Sample.hello] = Effects.Ok output /\
    output !! 0%nat = Some m /\
    Llm.m_role m = "user".
Proof.
  assert (Hall : Forall (fun m => is_Some (Llm.role m)) [Sample.hello])
    by (repeat constructor; exists "user"; reflexivity).
  split; [exact Hall|].
  destruct (proj2 (convertInputToOpenAIMessages_items [Sample.hello]) Hall)
    as (output & Hconv & _ & Hitems).
  destruct (Hitems 0%nat Sample.hello eq_refl)
    as (role & m & Hrole & Hm & Hkept & _).
  injection Hrole as <-.
  exists output, m. split; [exact Hconv|]. split; [exact Hm|].
  apply Hkept. reflexivity.
Defined.

Lemma get_requests_read_only_witness :
  Forall (fun r => Observe.is_get r = true)
    [Orgs.GetOrg "org_1"; Orgs.GetUsage "org_1" None; Orgs.GetProjects "org_2"] /\
  Effects.orgs
    (Orgs.serve (client := Orgs.camel_client)
       [Orgs.GetOrg "org_1"; Orgs.GetUsage "org_1" None; Orgs.GetProjects "org_2"]
       Sample.world0) = Effects.orgs Sample.world0.
Proof.
  assert (Hget : Forall (fun r => Observe.is_get r = true)
            [Orgs.GetOrg "org_1"; Orgs.GetUsage "org_1" None;
             Orgs.GetProjects "org_2"])
    by (repeat constructor).
  split; [exact Hget|].
  apply (proj2 (get_requests_read_only (client := Orgs.camel_client)
                  _ Sample.world0 "org_1") Hget).
Defined.

Lemma patch_then_get_witness :
  Effects.orgs Sample.world0 !! "org_1" = Some Sample.acme /\
  exists r',
    (Orgs.get_org "org_1"
       (Orgs.patch_org "org_1" (Some "Acme Ltd") Sample.world0).2).1
    = Effects.Ok (Orgs.OrgRow (Some ("org_1", r'))) /\
    Db.name r' = "Acme Ltd".
Proof.
  split; [reflexivity|].
  destruct (patch_then_get "org_1" "Acme Ltd" Sample.world0 Sample.acme eq_refl)
    as (_ & r' & Hget & Hname & _).
  exists r'. split; [exact Hget|exact Hname].
Defined.

Lemma patch_org_frame_witness :
  "org_2" <> "org_1" /\
  Effects.orgs (Orgs.patch_org "org_1" (Some "Acme Ltd") Sample.world0).2
    !! "org_2"
  = Effects.orgs Sample.world0 !! "org_2".
Proof.
  split; [discriminate|].
  apply (proj1 (patch_org_frame "org_1" (Some "Acme Ltd") Sample.world0)).
  discriminate.
Defined.

Lemma projects_of_org_witness :
  exists rows,
    (Orgs.get_projects "org_1" Sample.world0).1 =
    Effects.Ok (Orgs.ProjectRows rows) /\
    ("app_1",
     {| Db.app_created_at := 0; Db.app_name := "web"; Db.org_id := "org_1" |},
     true) ∈ rows.
Proof.
  destruct (projects_of_org "org_1" Sample.world0) as (rows & Hrows & _ & Hmem & _).
  exists rows. split; [exact Hrows|].
  apply Hmem. repeat split.
Defined.

Lemma usage_totals_witness :
  (100 * Db.day, 2%nat) ∈ Orgs.usage_rows Sample.world0 "org_1" None /\
  (100 * Db.day) mod Db.day = 0 /\
  Effects.now Sample.world0 - 31 * Db.day < 100 * Db.day.
Proof.
  assert (Hin : (100 * Db.day, 2%nat) ∈ Orgs.usage_rows Sample.world0 "org_1" None)
    by (vm_compute; left).
  split; [exact Hin|].
  apply (proj2 (usage_totals Sample.world0 "org_1" None) _ _ Hin).
Defined.

Lemma usage_of_project_ignores_org_witness :
  "app_1" <> "" /\
  (Orgs.get_usage "org_2" (Some "app_1") Sample.world0).1 =
  (Orgs.get_usage "org_1" (Some "app_1") Sample.world0).1.
Proof.
  split; [discriminate|].
  apply (usage_of_project_ignores_org Sample.world0 "org_2" "org_1" "app_1").
  discriminate.
Defined.

Lemma text_only_fails : ~ Orgs.templates_compile Sample.text_only.
Proof.
  intros H. apply Forall_cons in H as [[c Hc] _]. discriminate Hc.
Qed.

Lemma playground_serves_witness :
  @column_key Orgs.camel_client "play_allowance" = "playAllowance" /\
  Effects.orgs Sample.world0 !! "org_2" = Some Sample.initech /\
  0 < Db.play_allowance Sample.initech /\
  Orgs.prepared Sample.prompt Sample.world0 /\
  exists messages,
    (Orgs.post_playground (client := Orgs.camel_client) "org_2" Sample.prompt
       Sample.world0).1 =
    Effects.Ok
      (Orgs.StreamingTextResponse
         (Orgs.select_method (Effects.env Sample.world0)
            (Orgs.model_of (Request.extra Sample.prompt)))
         (Observe.request_of Sample.prompt messages)).
Proof.
  split; [reflexivity|]. split; [reflexivity|]. split; [reflexivity|].
  split; [exact prompt_prepared|].
  destruct (playground_serves (client := Orgs.camel_client) "org_2"
              Sample.prompt Sample.world0 Sample.initech
              eq_refl eq_refl eq_refl prompt_prepared)
    as (messages & _ & Hok & _).
  exists messages. apply Hok. reflexivity.
Defined.

Lemma playground_type_error_spends_witness :
  @column_key Orgs.camel_client "play_allowance" = "playAllowance" /\
  Effects.orgs Sample.world0 !! "org_2" = Some Sample.initech /\
  0 < Db.play_allowance Sample.initech /\
  ~ Orgs.templates_compile Sample.text_only /\
  Db.play_allowance <$>
    Effects.orgs
      (Orgs.post_playground (client := Orgs.camel_client) "org_2"
         Sample.text_only Sample.world0).2 !! "org_2" =
  Some (Db.play_allowance Sample.initech - 1).
Proof.
  split; [reflexivity|]. split; [reflexivity|]. split; [reflexivity|].
  split; [exact text_only_fails|].
  apply (playground_type_error_spends (client := Orgs.camel_client) "org_2"
           Sample.text_only Sample.world0 Sample.initech
           eq_refl eq_refl eq_refl text_only_fails).
Defined.


Lemma playground_quota_witness :
  @column_key Orgs.camel_client "play_allowance" = "playAllowance" /\
  Effects.orgs Sample.world0 !! "org_2" = Some Sample.initech /\
  0 <= Db.play_allowance Sample.initech /\
  Db.play_allowance <$>
    Effects.orgs
      (Orgs.serve (client := Orgs.camel_client)
         (Orgs.PostPlayground "org_2" <$>
            [Sample.prompt; Sample.text_only; Sample.prompt; Sample.prompt])
         Sample.world0) !! "org_2" =
  Some (Z.max 0 (Db.play_allowance Sample.initech - Z.of_nat 4)).
Proof.
  split; [reflexivity|]. split; [reflexivity|]. split; [discriminate|].
  apply (proj1 (playground_quota (client := Orgs.camel_client) "org_2"
                  [Sample.prompt; Sample.text_only; Sample.prompt; Sample.prompt]
                  Sample.world0 Sample.initech eq_refl eq_refl
                  ltac:(discriminate))).
Defined.

Lemma upgrade_frame_witness :
  Effects.orgs Sample.world0 !! "org_1" = Some Sample.acme /\
  exists r',
    Effects.orgs
      (Orgs.post_upgrade (client := Orgs.camel_client) "org_1" Sample.to_pro
         Sample.world0).2 !! "org_1" = Some r' /\
    Db.play_allowance r' = Db.play_allowance Sample.acme.
Proof.
  split; [reflexivity|].
  destruct (proj1 (proj2 (upgrade_frame (client := Orgs.camel_client)
                            "org_1" Sample.to_pro Sample.world0))
              Sample.acme eq_refl)
    as (r' & Hr' & Hallow & _).
  exists r'. split; [exact Hr'|exact Hallow].
Defined.

Lemma camel_client_keys : Observe.camel_keys (client := Orgs.camel_client).
Proof. repeat split. Qed.

Lemma upgrade_checkout_witness :
  Observe.camel_keys (client := Orgs.camel_client) /\
  Effects.orgs Sample.world0 !! "org_1" = Some Sample.acme /\
  Stripe.sessions
    (Effects.stripe
       (Orgs.post_upgrade (client := Orgs.camel_client) "org_1" Sample.to_pro
          Sample.world0).2) =
  Stripe.sessions (Effects.stripe Sample.world0) ++
  [ Observe.checkout_of "org_1" Sample.to_pro Sample.acme
      {| Stripe.price_id := "price_pro";
         Stripe.lookup_key := Some "pro_monthly" |} ].
Proof.
  split; [exact camel_client_keys|]. split; [reflexivity|].
  apply (upgrade_checkout (client := Orgs.camel_client) "org_1" Sample.to_pro
           Sample.world0 Sample.acme _ [] camel_client_keys eq_refl eq_refl).
Defined.

Lemma progress_hidden_until_first_tick_witness :
  NewEvaluation.start_disabled
    (NewEvaluation.run
       [ NewEvaluation.ChangeDataset (Some "ds_1");
         NewEvaluation.ChangeChecklist (Some "cl_1") ]) = false /\
  Observe.progress_shown
    (NewEvaluation.update
       (NewEvaluation.run
          [ NewEvaluation.ChangeDataset (Some "ds_1");
            NewEvaluation.ChangeChecklist (Some "cl_1") ])
       NewEvaluation.ClickStart) = false.
Proof.
  split; [reflexivity|].
  apply (proj1 (progress_hidden_until_first_tick
                  [ NewEvaluation.ChangeDataset (Some "ds_1");
                    NewEvaluation.ChangeChecklist (Some "cl_1") ]
                  0 eq_refl)).
Defined.

